(** * mainsecretkey.py: a token-guarded webhook receiver with an in-memory log

    A shallow embedding of the request handlers of [mainsecretkey.py].

    - The module-level list [received_transactions] is a field of an explicit
      state, next to the records handed to the logger.
    - The handlers run in an error monad over that state: [raise],
      [try]/[except Exception] and the exceptions FastAPI turns into HTTP
      errors are outcomes of a computation.  The handlers are [async def]s
      without an [await], so each runs to its end before the next starts; a
      process lifetime is a sequence of requests.
    - What the handlers cannot decide themselves is an environment they
      read: the secret in [WEBHOOK_TOKEN], what each call of
      [datetime.now()] returns, and whether a call of
      [received_transactions.append] raises (the one storage operation of
      the program; everything else in the [try] bodies builds values from
      values at hand). *)

From Stdlib Require Import ZArith Ascii String Lia.
From stdpp Require Import base option list strings gmap pretty.

Local Open Scope string_scope.
Local Open Scope Z_scope.
Local Open Scope list_scope.

(** ** Python values and the pydantic model *)

(** The values that occur in a stored transaction dict. *)
Inductive pyval :=
  | VNone
  | VInt (z : Z)
  | VStr (s : string).

#[global] Instance pyval_eq_dec : EqDecision pyval.
Proof. solve_decision. Defined.

(** Python truthiness, as used by [if t.get("usrname")]. *)
Definition truthy (v : pyval) : bool :=
  match v with
  | VNone => false
  | VInt z => negb (z =? 0)
  | VStr s => negb (String.eqb s "")
  end.

(** [str(v)], as produced by an f-string or ["%s" % v]. *)
Definition str (v : pyval) : string :=
  match v with
  | VNone => "None"
  | VInt z => pretty z
  | VStr s => s
  end.

(** [class UserTransaction(BaseModel)]: five optional fields, default [None]. *)
Record UserTransaction := {
  authorizer_usrnbr : option Z;
  creat_usrnbr : option Z;
  creat_time : option string;
  data : option string;
  usrname : option string
}.

Definition of_int (o : option Z) : pyval := from_option VInt VNone o.
Definition of_str (o : option string) : pyval := from_option VStr VNone o.

(** [transaction.dict()]: one key per declared field, [None] kept as is. *)
Definition UserTransaction_dict (t : UserTransaction) : gmap string pyval :=
  <["usrname" := of_str (usrname t)]>
  (<["data" := of_str (data t)]>
  (<["creat_time" := of_str (creat_time t)]>
  (<["creat_usrnbr" := of_int (creat_usrnbr t)]>
  (<["authorizer_usrnbr" := of_int (authorizer_usrnbr t)]> ∅)))).

(** ** Wall-clock readings and their two renderings *)

Record datetime := {
  year : Z; month : Z; day : Z;
  hour : Z; minute : Z; second : Z; microsecond : Z
}.

(** The ranges the [datetime] type itself guarantees (MINYEAR..MAXYEAR etc.). *)
Definition datetime_in_range (d : datetime) : Prop :=
  1 ≤ year d ≤ 9999 ∧ 1 ≤ month d ≤ 12 ∧ 1 ≤ day d ≤ 31 ∧
  0 ≤ hour d < 24 ∧ 0 ≤ minute d < 60 ∧ 0 ≤ second d < 60 ∧
  0 ≤ microsecond d < 1000000.

Definition digit (n : Z) : ascii := ascii_of_N (Z.to_N (48 + n mod 10)).

(** The [k] low decimal digits of [n], most significant first. *)
Fixpoint digits (k : nat) (n : Z) : string :=
  match k with
  | O => ""
  | S k' => String (digit (n / 10 ^ Z.of_nat k')) (digits k' n)
  end.

(** ["%0kd" % n]: zero-padded to width [k]; a number that does not fit is
    printed in full. *)
Definition fmt_d (k : nat) (n : Z) : string :=
  if (0 <=? n) && (n <? 10 ^ Z.of_nat k) then digits k n else pretty n.

(** [d.isoformat()]: [YYYY-MM-DDTHH:MM:SS], followed by [.ffffff] only when
    the microsecond field is not zero. *)
Definition isoformat (d : datetime) : string :=
  fmt_d 4 (year d) +:+ "-" +:+ fmt_d 2 (month d) +:+ "-" +:+ fmt_d 2 (day d)
  +:+ "T" +:+ fmt_d 2 (hour d) +:+ ":" +:+ fmt_d 2 (minute d) +:+ ":"
  +:+ fmt_d 2 (second d)
  +:+ (if microsecond d =? 0 then "" else "." +:+ fmt_d 6 (microsecond d)).

(** [d.strftime("%Y%m%d_%H%M%S")].  [%Y] is rendered with four digits, which
    is what every platform prints from year 1000 on. *)
Definition strftime_Ymd_HMS (d : datetime) : string :=
  fmt_d 4 (year d) +:+ fmt_d 2 (month d) +:+ fmt_d 2 (day d) +:+ "_"
  +:+ fmt_d 2 (hour d) +:+ fmt_d 2 (minute d) +:+ fmt_d 2 (second d).

(** Chronological order of two readings, field by field. *)
Definition datetime_key (d : datetime) : list Z :=
  [year d; month d; day d; hour d; minute d; second d; microsecond d].

Fixpoint lex_compare (a b : list Z) : comparison :=
  match a, b with
  | [], [] => Eq
  | [], _ :: _ => Lt
  | _ :: _, [] => Gt
  | x :: a', y :: b' =>
      match Z.compare x y with
      | Eq => lex_compare a' b'
      | c => c
      end
  end.

Definition datetime_compare (a b : datetime) : comparison :=
  lex_compare (datetime_key a) (datetime_key b).

Definition datetime_le (a b : datetime) : Prop := datetime_compare a b ≠ Gt.

(** The shape [YYYYMMDD_HHMMSS]: eight digits, an underscore, six digits. *)
Definition is_digit (c : ascii) : bool :=
  (48 <=? N_of_ascii c)%N && (N_of_ascii c <=? 57)%N.

Fixpoint all_digits (s : string) : bool :=
  match s with
  | "" => true
  | String c s' => is_digit c && all_digits s'
  end.

Definition is_Ymd_HMS (s : string) : bool :=
  (String.length s =? 15)%nat &&
  all_digits (substring 0 8 s) &&
  String.eqb (substring 8 1 s) "_" &&
  all_digits (substring 9 6 s).

(** ** State, environment and the handler monad *)

Inductive level := ERROR | WARNING | INFO.

(** What a request can change: the module-level list, the log, and how often
    the clock and [list.append] have been called so far. *)
Record state := {
  received_transactions : list (gmap string pyval);
  log_records : list (level * string);
  clock_reads : nat;
  append_calls : nat
}.

(** What the handlers only read: the secret taken from the process
    environment at import time, the reading the [n]-th call of
    [datetime.now()] returns, and whether the [n]-th call of
    [received_transactions.append] raises (with the text of the exception). *)
Record env := {
  WEBHOOK_TOKEN : string;
  wall_clock : nat → datetime;
  append_fault : nat → option string
}.

Inductive exn :=
  | HTTPException (status_code : Z) (detail : string)
  | Exception (message : string).

(** [str(e)]. *)
Definition str_exn (e : exn) : string :=
  match e with
  | HTTPException c d => pretty c +:+ ": " +:+ d
  | Exception m => m
  end.

Inductive outcome (A : Type) :=
  | Return (a : A)
  | Raise (e : exn).
Arguments Return {A} a.
Arguments Raise {A} e.

Definition M (A : Type) : Type := env → state → outcome A * state.

#[global] Instance M_ret : MRet M := λ A a _ σ, (Return a, σ).

#[global] Instance M_bind : MBind M := λ A B f m ρ σ,
  match m ρ σ with
  | (Return a, σ') => f a ρ σ'
  | (Raise e, σ') => (Raise e, σ')
  end.

#[global] Instance M_fmap : FMap M := λ A B f m, a ← m; mret (f a).

Definition raise {A} (e : exn) : M A := λ _ σ, (Raise e, σ).

(** [try: body except Exception as e: handler e].  Both kinds of [exn] are
    subclasses of [Exception]. *)
Definition try_except {A} (body : M A) (handler : exn → M A) : M A := λ ρ σ,
  match body ρ σ with
  | (Return a, σ') => (Return a, σ')
  | (Raise e, σ') => handler e ρ σ'
  end.

(** The state once a record has been handed to the logger. *)
Definition logged (σ : state) (lvl : level) (msg : string) : state :=
  {| received_transactions := received_transactions σ;
     log_records := log_records σ ++ [(lvl, msg)];
     clock_reads := clock_reads σ;
     append_calls := append_calls σ |}.

Definition logger (lvl : level) (msg : string) : M unit := λ _ σ,
  (Return (), logged σ lvl msg).

(** [datetime.now()]. *)
Definition datetime_now : M datetime := λ ρ σ,
  (Return (wall_clock ρ (clock_reads σ)),
   {| received_transactions := received_transactions σ;
      log_records := log_records σ;
      clock_reads := S (clock_reads σ);
      append_calls := append_calls σ |}).

(** The module-level names, read. *)
Definition get_WEBHOOK_TOKEN : M string := λ ρ σ, (Return (WEBHOOK_TOKEN ρ), σ).
Definition get_received_transactions_list : M (list (gmap string pyval)) :=
  λ _ σ, (Return (received_transactions σ), σ).

Definition len {A} (l : list A) : Z := Z.of_nat (length l).

(** [received_transactions.append(d)]: either the list grows by [d] or the
    call raises and the list is as before. *)
Definition received_transactions_append (d : gmap string pyval) : M unit := λ ρ σ,
  match append_fault ρ (append_calls σ) with
  | Some msg =>
      (Raise (Exception msg),
       {| received_transactions := received_transactions σ;
          log_records := log_records σ;
          clock_reads := clock_reads σ;
          append_calls := S (append_calls σ) |})
  | None =>
      (Return (),
       {| received_transactions := received_transactions σ ++ [d];
          log_records := log_records σ;
          clock_reads := clock_reads σ;
          append_calls := S (append_calls σ) |})
  end.

(** Truthiness of a list: [if received_transactions]. *)
Definition nonempty {A} (l : list A) : bool :=
  match l with
  | [] => false
  | _ :: _ => true
  end.

(** [d[k]], a [KeyError] when the key is missing. *)
Definition getitem (d : gmap string pyval) (k : string) : M pyval :=
  match d !! k with
  | Some v => mret v
  | None => raise (Exception ("'" +:+ k +:+ "'"))
  end.

(** [d.get(k)]. *)
Definition dict_get (d : gmap string pyval) (k : string) : pyval :=
  default VNone (d !! k).

(** [l[i]] with Python's negative indices, an [IndexError] out of range. *)
Definition index {A} (l : list A) (i : Z) : M A :=
  let j := if i <? 0 then len l + i else i in
  match (if j <? 0 then None else l !! Z.to_nat j) with
  | Some x => mret x
  | None => raise (Exception "list index out of range")
  end.

(** [l[i:]]: the start is clamped to the list, never an error. *)
Definition slice_from {A} (l : list A) (i : Z) : list A :=
  let j := if i <? 0 then Z.max (len l + i) 0 else Z.min i (len l) in
  drop (Z.to_nat j) l.

(** ** The JSON bodies of the responses, one record per dict literal *)

Module Root.
Record service_info := { source : string; topic : string; purpose : string }.
Record t := {
  message : string; status : string; timestamp : string;
  total_received : Z; service_info_ : service_info
}.
End Root.

Module Single.
Record t := {
  status : string; message : string; poc_id : pyval;
  user : pyval; received_at : pyval
}.
End Single.

Module Batch.
Record t := {
  status : string; message : string; batch_id : string; total_received : Z
}.
End Batch.

Module Recent.
Record t := {
  total_count : Z; last_10_transactions : list (gmap string pyval);
  last_updated : string; poc_status : string
}.
End Recent.

Module Health.
Record t := {
  status : string; timestamp : string; service : string;
  total_transactions : Z
}.
End Health.

Module Stats.
Inductive t :=
  | Waiting (message : string) (total_count : Z) (status : string)
  | Collecting (total_transactions : Z) (unique_users : Z)
      (user_list : list pyval) (first_transaction last_transaction : pyval)
      (poc_status : string).
End Stats.

(** ** The handlers *)

Definition check_token (x_webhook_token : option string) : M unit :=
  token ← get_WEBHOOK_TOKEN;
  if negb (truthy (VStr token)) then
    logger ERROR "[SECURITY] WEBHOOK_TOKEN not configured in environment";;
    raise (HTTPException 500 "Server misconfiguration: WEBHOOK_TOKEN missing")
  else if negb (truthy (of_str x_webhook_token))
          || negb (bool_decide (of_str x_webhook_token = VStr token)) then
    logger WARNING ("[SECURITY] Unauthorized access attempt with token: "
                    +:+ str (of_str x_webhook_token));;
    raise (HTTPException 401 "Unauthorized")
  else mret ().

Definition root : M Root.t :=
  now ← datetime_now;
  store ← get_received_transactions_list;
  mret {| Root.message := "Rakbank POC Kafka User Transaction Webhook Service (Secure V2)";
          Root.status := "running";
          Root.timestamp := isoformat now;
          Root.total_received := len store;
          Root.service_info_ :=
            {| Root.source := "Confluent Cloud Flink";
               Root.topic := "user_trans_hst_avro";
               Root.purpose := "POC webhook endpoint with SharedKey" |} |}.

Definition receive_user_transaction
    (transaction : UserTransaction) (x_webhook_token : option string) : M Single.t :=
  check_token x_webhook_token;;
  try_except
    (let transaction_dict := UserTransaction_dict transaction in
     now ← datetime_now;
     let transaction_dict := <["received_at" := VStr (isoformat now)]> transaction_dict in
     store ← get_received_transactions_list;
     let transaction_dict := <["poc_id" := VInt (len store + 1)]> transaction_dict in
     received_transactions_append transaction_dict;;
     logger INFO ("[POC V2] Transaction received - User: "
                  +:+ str (of_str (usrname transaction)) +:+ ", Creator: "
                  +:+ str (of_int (creat_usrnbr transaction)));;
     poc_id ← getitem transaction_dict "poc_id";
     received_at ← getitem transaction_dict "received_at";
     mret {| Single.status := "success";
             Single.message := "User transaction received successfully";
             Single.poc_id := poc_id;
             Single.user := of_str (usrname transaction);
             Single.received_at := received_at |})
    (λ e,
     logger ERROR ("[POC V2 ERROR] Failed to process transaction: " +:+ str_exn e);;
     raise (HTTPException 500 ("Error processing transaction: " +:+ str_exn e))).

(** The [for transaction in transactions:] loop, threading [received_count]. *)
Fixpoint receive_batch_loop (batch_id : string)
    (transactions : list UserTransaction) (received_count : Z) : M Z :=
  match transactions with
  | [] => mret received_count
  | transaction :: rest =>
      let transaction_dict := UserTransaction_dict transaction in
      now ← datetime_now;
      let transaction_dict := <["received_at" := VStr (isoformat now)]> transaction_dict in
      let transaction_dict := <["batch_id" := VStr batch_id]> transaction_dict in
      store ← get_received_transactions_list;
      let transaction_dict := <["poc_id" := VInt (len store + 1)]> transaction_dict in
      received_transactions_append transaction_dict;;
      let received_count := received_count + 1 in
      logger INFO ("[POC V2 BATCH] Transaction received - User: "
                   +:+ str (of_str (usrname transaction)));;
      receive_batch_loop batch_id rest received_count
  end.

Definition receive_batch_transactions
    (transactions : list UserTransaction) (x_webhook_token : option string) : M Batch.t :=
  check_token x_webhook_token;;
  try_except
    (let received_count := 0 in
     now ← datetime_now;
     let batch_id := strftime_Ymd_HMS now in
     received_count ← receive_batch_loop batch_id transactions received_count;
     store ← get_received_transactions_list;
     mret {| Batch.status := "success";
             Batch.message := "Batch of " +:+ pretty received_count
                              +:+ " transactions received successfully";
             Batch.batch_id := batch_id;
             Batch.total_received := len store |})
    (λ e,
     logger ERROR ("[POC V2 ERROR] Failed to process batch: " +:+ str_exn e);;
     raise (HTTPException 500 ("Error processing batch: " +:+ str_exn e))).

Definition get_received_transactions (x_webhook_token : option string) : M Recent.t :=
  check_token x_webhook_token;;
  store ← get_received_transactions_list;
  let last_10 := if nonempty store then slice_from store (-10) else [] in
  now ← datetime_now;
  mret {| Recent.total_count := len store;
          Recent.last_10_transactions := last_10;
          Recent.last_updated := isoformat now;
          Recent.poc_status := "active" |}.

Definition health_check : M Health.t :=
  now ← datetime_now;
  store ← get_received_transactions_list;
  mret {| Health.status := "healthy";
          Health.timestamp := isoformat now;
          Health.service := "Rakbank POC Kafka Webhook V2";
          Health.total_transactions := len store |}.

(** [list(set(users))]: each value once; the order Python gives is not
    specified, here it is the order of first occurrence. *)
Definition list_set (users : list pyval) : list pyval := remove_dups users.

Definition poc_statistics (x_webhook_token : option string) : M Stats.t :=
  check_token x_webhook_token;;
  store ← get_received_transactions_list;
  if negb (nonempty store) then
    mret (Stats.Waiting "No transactions received yet" 0 "waiting_for_data")
  else
    let users := (λ t, dict_get t "usrname")
                   <$> filter (λ t, truthy (dict_get t "usrname") = true) store in
    let unique_users := list_set users in
    first ← index store 0;
    first_transaction ← getitem first "received_at";
    last ← index store (-1);
    last_transaction ← getitem last "received_at";
    mret (Stats.Collecting (len store) (len unique_users) unique_users
            first_transaction last_transaction "collecting_data").

(** ** The routes, and a process lifetime as a sequence of requests *)

Inductive request :=
  | GET_root
  | POST_webhook_user_transactions (body : UserTransaction) (x_webhook_token : option string)
  | POST_webhook_user_transactions_batch (body : list UserTransaction) (x_webhook_token : option string)
  | GET_webhook_user_transactions (x_webhook_token : option string)
  | GET_health
  | GET_poc_stats (x_webhook_token : option string).

Inductive response :=
  | RootBody (r : Root.t)
  | SingleBody (r : Single.t)
  | BatchBody (r : Batch.t)
  | RecentBody (r : Recent.t)
  | HealthBody (r : Health.t)
  | StatsBody (r : Stats.t).

Definition serve (q : request) : M response :=
  match q with
  | GET_root => RootBody <$> root
  | POST_webhook_user_transactions body tok =>
      SingleBody <$> receive_user_transaction body tok
  | POST_webhook_user_transactions_batch body tok =>
      BatchBody <$> receive_batch_transactions body tok
  | GET_webhook_user_transactions tok => RecentBody <$> get_received_transactions tok
  | GET_health => HealthBody <$> health_check
  | GET_poc_stats tok => StatsBody <$> poc_statistics tok
  end.

(** The routes that call [check_token], with the header they were sent. *)
Definition presented_token (q : request) : option (option string) :=
  match q with
  | GET_root | GET_health => None
  | POST_webhook_user_transactions _ tok
  | POST_webhook_user_transactions_batch _ tok
  | GET_webhook_user_transactions tok
  | GET_poc_stats tok => Some tok
  end.

(** The state at import time: [received_transactions = []]. *)
Definition initial : state :=
  {| received_transactions := []; log_records := [];
     clock_reads := 0; append_calls := 0 |}.

(** The state after serving the requests of [qs] one after the other. *)
Fixpoint run (ρ : env) (qs : list request) (σ : state) : state :=
  match qs with
  | [] => σ
  | q :: qs' => run ρ qs' (snd (serve q ρ σ))
  end.

(** [check_token] lets the header through. *)
Definition authorized (ρ : env) (tok : option string) : Prop :=
  WEBHOOK_TOKEN ρ ≠ "" ∧ tok = Some (WEBHOOK_TOKEN ρ).

(** The stored value under [k], when there is one. *)
Definition field (k : string) (d : gmap string pyval) : option pyval := d !! k.

(** The two shapes of a stored record: what lines 64-66 and lines 91-94 of
    the source build before the append, given the payload, the clock reading
    and the length of the list at that moment. *)
Definition single_record (t : UserTransaction) (now : datetime) (count : Z)
    : gmap string pyval :=
  <["poc_id" := VInt (count + 1)]>
  (<["received_at" := VStr (isoformat now)]> (UserTransaction_dict t)).

Definition batch_record (t : UserTransaction) (now : datetime)
    (batch_id : string) (count : Z) : gmap string pyval :=
  <["poc_id" := VInt (count + 1)]>
  (<["batch_id" := VStr batch_id]>
  (<["received_at" := VStr (isoformat now)]> (UserTransaction_dict t))).

(** The records a batch appends when nothing raises: the payloads in input
    order, the [i]-th with the [i]-th clock reading after [reads] and the
    [i]-th count after [count]. *)
Fixpoint batch_records (ρ : env) (batch_id : string) (reads : nat) (count : Z)
    (transactions : list UserTransaction) : list (gmap string pyval) :=
  match transactions with
  | [] => []
  | t :: rest =>
      batch_record t (wall_clock ρ reads) batch_id count
      :: batch_records ρ batch_id (S reads) (count + 1) rest
  end.

(** What a well-formed stored record looks like at position [i]. *)
Definition stored_shape (ρ : env) (i : nat) (d : gmap string pyval) : Prop :=
  ∃ t n, d = single_record t (wall_clock ρ n) (Z.of_nat i)
       ∨ ∃ m, d = batch_record t (wall_clock ρ n)
                    (strftime_Ymd_HMS (wall_clock ρ m)) (Z.of_nat i).

(** ** Vocabulary for the further properties *)


(** A request that cannot pass [check_token]: it calls it and is not let
    through.  The two routes without a guard are not of this kind. *)
Definition rejected (ρ : env) (q : request) : Prop :=
  ∃ tok, presented_token q = Some tok ∧ ¬ authorized ρ tok.

(** The record line 97 of the source hands to the logger for a payload. *)
Definition batch_info (t : UserTransaction) : level * string :=
  (INFO, "[POC V2 BATCH] Transaction received - User: "
         +:+ str (of_str (usrname t))).

(** ** Two sample deployments *)

(** A payload as a producer would send it, with only two fields given. *)
Definition payload_of (u : string) : UserTransaction :=
  {| authorizer_usrnbr := None; creat_usrnbr := Some 7; creat_time := None;
     data := None; usrname := Some u |}.

(** 9 March 2024, 07:05:00, and [us] microseconds. *)
Definition morning (us : Z) : datetime :=
  {| year := 2024; month := 3; day := 9; hour := 7; minute := 5; second := 0;
     microsecond := us |}.

(** Secret "abc123", a clock that advances one microsecond per reading (and
    stops at the end of its second), appends that never raise. *)
Definition steady_env : env :=
  {| WEBHOOK_TOKEN := "abc123";
     wall_clock := λ n, morning (Z.min (Z.of_nat n) 999999);
     append_fault := λ _, None |}.

(** The same, but the third append of the process raises. *)
Definition failing_env : env :=
  {| WEBHOOK_TOKEN := "abc123";
     wall_clock := λ n, morning (Z.min (Z.of_nat n) 999999);
     append_fault := λ n, if (n =? 2)%nat then Some "out of memory" else None |}.

(** No secret configured. *)
Definition unconfigured_env : env :=
  {| WEBHOOK_TOKEN := "";
     wall_clock := λ n, morning (Z.min (Z.of_nat n) 999999);
     append_fault := λ _, None |}.

(** 3 November 2024 in a zone that leaves daylight saving time at 02:00:
    the local time [datetime.now()] returns goes from 01:59:59 back to
    01:00:00 between the second and the third reading. *)
Definition fall_back_env : env :=
  {| WEBHOOK_TOKEN := "abc123";
     wall_clock := λ n,
       if (n <? 2)%nat then
         {| year := 2024; month := 11; day := 3; hour := 1; minute := 59;
            second := 59; microsecond := 999000 + Z.of_nat n |}
       else
         {| year := 2024; month := 11; day := 3; hour := 1; minute := 0;
            second := 0; microsecond := 500 |};
     append_fault := λ _, None |}.

(** Two authorized single submissions, as a producer with the right secret
    sends them. *)
Definition two_submissions : list request :=
  [POST_webhook_user_transactions (payload_of "alice") (Some "abc123");
   POST_webhook_user_transactions (payload_of "bob") (Some "abc123")].

(** Three requests that do not get past the guard: a wrong secret, no
    header at all, and a route that has no guard. *)
Definition three_outsiders : list request :=
  [POST_webhook_user_transactions (payload_of "mallory") (Some "guess");
   POST_webhook_user_transactions_batch [payload_of "mallory"] None;
   GET_health].

(** * Properties *)

(** ** Running the monad *)

Ltac unfold_M :=
  unfold mbind, M_bind, mret, M_ret, fmap, M_fmap, raise, try_except, logger,
    datetime_now, get_WEBHOOK_TOKEN, get_received_transactions_list,
    received_transactions_append, logged in *.

Lemma truthy_VStr s : truthy (VStr s) = true ↔ s ≠ "".
Proof.
  simpl. destruct (String.eqb_spec s ""); simpl; split; congruence.
Qed.

Lemma check_token_ok ρ tok σ :
  authorized ρ tok → check_token tok ρ σ = (Return (), σ).
Proof.
  intros [Hne ->]. unfold check_token. unfold_M. simpl.
  destruct (String.eqb_spec (WEBHOOK_TOKEN ρ) ""); [done|]. simpl.
  rewrite bool_decide_true by done. done.
Qed.

Lemma check_token_misconfigured ρ tok σ :
  WEBHOOK_TOKEN ρ = "" →
  check_token tok ρ σ =
    (Raise (HTTPException 500 "Server misconfiguration: WEBHOOK_TOKEN missing"),
     logged σ ERROR "[SECURITY] WEBHOOK_TOKEN not configured in environment").
Proof.
  intros H. unfold check_token. unfold_M. simpl. rewrite H. done.
Qed.

Lemma check_token_unauthorized ρ tok σ :
  WEBHOOK_TOKEN ρ ≠ "" → tok ≠ Some (WEBHOOK_TOKEN ρ) →
  check_token tok ρ σ =
    (Raise (HTTPException 401 "Unauthorized"),
     logged σ WARNING ("[SECURITY] Unauthorized access attempt with token: "
                       +:+ str (of_str tok))).
Proof.
  intros Hne Htok. unfold check_token. unfold_M. simpl.
  destruct (String.eqb_spec (WEBHOOK_TOKEN ρ) ""); [done|]. simpl.
  destruct tok as [s|]; simpl; [|done].
  destruct (String.eqb_spec s ""); simpl; [done|].
  rewrite bool_decide_false; [done|]. intros [= ->]. done.
Qed.

Lemma bind_Raise {A B} (m : M A) (f : A → M B) ρ σ e σ' :
  m ρ σ = (Raise e, σ') → (m ≫= f) ρ σ = (Raise e, σ').
Proof. intros H. unfold mbind, M_bind. by rewrite H. Qed.

Lemma bind_Return {A B} (m : M A) (f : A → M B) ρ σ a σ' :
  m ρ σ = (Return a, σ') → (m ≫= f) ρ σ = f a ρ σ'.
Proof. intros H. unfold mbind, M_bind. by rewrite H. Qed.

Lemma fmap_Raise {A B} (g : A → B) (m : M A) ρ σ e σ' :
  m ρ σ = (Raise e, σ') → (g <$> m) ρ σ = (Raise e, σ').
Proof. intros H. unfold fmap, M_fmap. by apply bind_Raise. Qed.

Lemma fmap_Return {A B} (g : A → B) (m : M A) ρ σ a σ' :
  m ρ σ = (Return a, σ') → (g <$> m) ρ σ = (Return (g a), σ').
Proof. intros H. unfold fmap, M_fmap. by rewrite (bind_Return _ _ _ _ a σ'). Qed.

Lemma not_authorized ρ tok :
  ¬ authorized ρ tok →
  WEBHOOK_TOKEN ρ = "" ∨ (WEBHOOK_TOKEN ρ ≠ "" ∧ tok ≠ Some (WEBHOOK_TOKEN ρ)).
Proof.
  intros H. destruct (decide (WEBHOOK_TOKEN ρ = "")) as [|Hne]; [by left|].
  right. split; [done|]. intros ->. apply H. by split.
Qed.

(** ** The token guard *)

(** C1: token validation is a trichotomy.  With an empty configured secret
    [check_token] raises HTTP 500 whatever was presented (this test comes
    first); otherwise, with the header absent or different from the secret,
    it raises HTTP 401; otherwise it returns and leaves the state, log
    included, exactly as it was. *)
Theorem check_token_trichotomy (ρ : env) (tok : option string) (σ : state) :
  (WEBHOOK_TOKEN ρ = "" →
     check_token tok ρ σ =
       (Raise (HTTPException 500 "Server misconfiguration: WEBHOOK_TOKEN missing"),
        logged σ ERROR "[SECURITY] WEBHOOK_TOKEN not configured in environment"))
  ∧ (WEBHOOK_TOKEN ρ ≠ "" →
     (tok = None ∨ ∃ s, tok = Some s ∧ s ≠ WEBHOOK_TOKEN ρ) →
     check_token tok ρ σ =
       (Raise (HTTPException 401 "Unauthorized"),
        logged σ WARNING ("[SECURITY] Unauthorized access attempt with token: "
                          +:+ str (of_str tok))))
  ∧ (WEBHOOK_TOKEN ρ ≠ "" → tok = Some (WEBHOOK_TOKEN ρ) →
     check_token tok ρ σ = (Return (), σ)).
Proof.
  split; [apply check_token_misconfigured|]. split.
  - intros Hne Htok. apply check_token_unauthorized; [done|].
    destruct Htok as [->|(s & -> & Hs)]; [done|]. by intros [= ->].
  - intros Hne Htok. by apply check_token_ok.
Qed.

Lemma serve_check_token_Raise ρ q tok σ e σ' :
  presented_token q = Some tok →
  check_token tok ρ σ = (Raise e, σ') →
  serve q ρ σ = (Raise e, σ').
Proof.
  intros Hq Hc.
  destruct q; simpl in Hq; try done; injection Hq as ->; simpl;
    apply fmap_Raise; by apply bind_Raise.
Qed.

Lemma check_token_fails ρ tok σ :
  ¬ authorized ρ tok →
  ∃ e σ',
    check_token tok ρ σ = (Raise e, σ')
    ∧ (e = HTTPException 500 "Server misconfiguration: WEBHOOK_TOKEN missing"
         ∧ WEBHOOK_TOKEN ρ = ""
       ∨ e = HTTPException 401 "Unauthorized" ∧ WEBHOOK_TOKEN ρ ≠ "")
    ∧ received_transactions σ' = received_transactions σ
    ∧ clock_reads σ' = clock_reads σ
    ∧ append_calls σ' = append_calls σ.
Proof.
  intros Hna. destruct (not_authorized _ _ Hna) as [He|[Hne Htok]].
  - eexists _, _. split; [by apply check_token_misconfigured|].
    split; [by left|]. done.
  - eexists _, _. split; [by apply check_token_unauthorized|].
    split; [by right|]. done.
Qed.

(** C2: a protected route whose token check fails ends with the error of
    [check_token] (HTTP 500 or HTTP 401) and nothing else has happened: the
    list of received transactions is the same list, no clock reading and no
    append was made, and the error carries nothing of the store. *)
Theorem token_failure_short_circuits (ρ : env) (q : request)
    (tok : option string) (σ : state) :
  presented_token q = Some tok →
  ¬ authorized ρ tok →
  ∃ e σ',
    check_token tok ρ σ = (Raise e, σ')
    ∧ serve q ρ σ = (Raise e, σ')
    ∧ (e = HTTPException 500 "Server misconfiguration: WEBHOOK_TOKEN missing"
         ∧ WEBHOOK_TOKEN ρ = ""
       ∨ e = HTTPException 401 "Unauthorized" ∧ WEBHOOK_TOKEN ρ ≠ "")
    ∧ received_transactions σ' = received_transactions σ
    ∧ clock_reads σ' = clock_reads σ
    ∧ append_calls σ' = append_calls σ.
Proof.
  intros Hq Hna.
  destruct (check_token_fails ρ tok σ Hna) as (e & σ' & Hc & He & Hrest).
  exists e, σ'. split; [done|].
  split; [by eapply serve_check_token_Raise|]. done.
Qed.

(** ** Single submission *)

Lemma getitem_poc_id_single t now c :
  getitem (single_record t now c) "poc_id" = mret (VInt (c + 1)).
Proof. unfold getitem, single_record. by rewrite lookup_insert_eq. Qed.

Lemma getitem_received_at_single t now c :
  getitem (single_record t now c) "received_at" = mret (VStr (isoformat now)).
Proof.
  unfold getitem, single_record.
  rewrite lookup_insert_ne by done. by rewrite lookup_insert_eq.
Qed.

(** The whole of an authorized single submission, either way the append goes. *)
Lemma receive_user_transaction_run ρ σ t tok :
  authorized ρ tok →
  receive_user_transaction t tok ρ σ =
    let now := wall_clock ρ (clock_reads σ) in
    let d := single_record t now (len (received_transactions σ)) in
    match append_fault ρ (append_calls σ) with
    | None =>
        (Return {| Single.status := "success";
                   Single.message := "User transaction received successfully";
                   Single.poc_id := VInt (len (received_transactions σ) + 1);
                   Single.user := of_str (usrname t);
                   Single.received_at := VStr (isoformat now) |},
         {| received_transactions := received_transactions σ ++ [d];
            log_records := log_records σ ++
              [(INFO, "[POC V2] Transaction received - User: "
                      +:+ str (of_str (usrname t)) +:+ ", Creator: "
                      +:+ str (of_int (creat_usrnbr t)))];
            clock_reads := S (clock_reads σ);
            append_calls := S (append_calls σ) |})
    | Some msg =>
        (Raise (HTTPException 500 ("Error processing transaction: " +:+ msg)),
         {| received_transactions := received_transactions σ;
            log_records := log_records σ ++
              [(ERROR, "[POC V2 ERROR] Failed to process transaction: " +:+ msg)];
            clock_reads := S (clock_reads σ);
            append_calls := S (append_calls σ) |})
    end.
Proof.
  intros Hauth. unfold receive_user_transaction.
  rewrite (bind_Return _ _ _ _ () σ) by by apply check_token_ok.
  fold (single_record t (wall_clock ρ (clock_reads σ)) (len (received_transactions σ))).
  unfold_M. simpl.
  destruct (append_fault ρ (append_calls σ)) as [msg|]; simpl; [done|].
  fold (single_record t (wall_clock ρ (clock_reads σ)) (len (received_transactions σ))).
  rewrite getitem_poc_id_single, getitem_received_at_single. done.
Qed.

Lemma len_app {A} (l k : list A) : len (l ++ k) = len l + len k.
Proof. unfold len. rewrite length_app. lia. Qed.

(** C4: an authorized single submission whose append does not raise appends
    exactly one record, so the count grows by exactly one, and answers with
    status success, the sequence id just assigned (the count before the
    append plus one), the submitted user name and the timestamp the server
    gave that record. *)
Theorem single_submission_appends_one (ρ : env) (σ : state)
    (t : UserTransaction) (tok : option string) :
  authorized ρ tok →
  append_fault ρ (append_calls σ) = None →
  let now := wall_clock ρ (clock_reads σ) in
  let count := len (received_transactions σ) in
  let d := single_record t now count in
  ∃ σ',
    receive_user_transaction t tok ρ σ =
      (Return {| Single.status := "success";
                 Single.message := "User transaction received successfully";
                 Single.poc_id := VInt (count + 1);
                 Single.user := of_str (usrname t);
                 Single.received_at := VStr (isoformat now) |}, σ')
    ∧ received_transactions σ' = received_transactions σ ++ [d]
    ∧ len (received_transactions σ') = count + 1
    ∧ field "poc_id" d = Some (VInt (count + 1))
    ∧ field "received_at" d = Some (VStr (isoformat now)).
Proof.
  intros Hauth Hfault now count d.
  rewrite receive_user_transaction_run by done. rewrite Hfault. simpl.
  eexists. split; [done|]. simpl. split; [done|].
  split; [by rewrite len_app|].
  unfold field, d, single_record. split; [by rewrite lookup_insert_eq|].
  rewrite lookup_insert_ne by done. by rewrite lookup_insert_eq.
Qed.

Lemma of_int_None o : of_int o = VNone ↔ o = None.
Proof. destruct o; simpl; split; congruence. Qed.

Lemma of_str_None o : of_str o = VNone ↔ o = None.
Proof. destruct o; simpl; split; congruence. Qed.

Lemma UserTransaction_dict_fields t :
  UserTransaction_dict t !! "authorizer_usrnbr" = Some (of_int (authorizer_usrnbr t))
  ∧ UserTransaction_dict t !! "creat_usrnbr" = Some (of_int (creat_usrnbr t))
  ∧ UserTransaction_dict t !! "creat_time" = Some (of_str (creat_time t))
  ∧ UserTransaction_dict t !! "data" = Some (of_str (data t))
  ∧ UserTransaction_dict t !! "usrname" = Some (of_str (usrname t)).
Proof. unfold UserTransaction_dict. repeat split; by simplify_map_eq. Qed.

Lemma single_record_payload t now c k :
  k ≠ "poc_id" → k ≠ "received_at" →
  single_record t now c !! k = UserTransaction_dict t !! k.
Proof. intros. unfold single_record. by rewrite !lookup_insert_ne. Qed.

Lemma batch_record_payload t now b c k :
  k ≠ "poc_id" → k ≠ "batch_id" → k ≠ "received_at" →
  batch_record t now b c !! k = UserTransaction_dict t !! k.
Proof. intros. unfold batch_record. by rewrite !lookup_insert_ne. Qed.

(** C9: each of the five payload fields may be given or left out
    independently, and the stored record holds under each key exactly what
    was submitted: [None] where the field was absent (and only there), never
    a zero or an empty string put in its place. *)
Theorem absent_fields_stay_absent (ρ : env) (σ : state)
    (t : UserTransaction) (tok : option string) :
  authorized ρ tok →
  append_fault ρ (append_calls σ) = None →
  ∃ r σ' d,
    receive_user_transaction t tok ρ σ = (Return r, σ')
    ∧ received_transactions σ' = received_transactions σ ++ [d]
    ∧ (field "authorizer_usrnbr" d = Some (of_int (authorizer_usrnbr t))
       ∧ field "creat_usrnbr" d = Some (of_int (creat_usrnbr t))
       ∧ field "creat_time" d = Some (of_str (creat_time t))
       ∧ field "data" d = Some (of_str (data t))
       ∧ field "usrname" d = Some (of_str (usrname t)))
    ∧ ((field "authorizer_usrnbr" d = Some VNone ↔ authorizer_usrnbr t = None)
       ∧ (field "creat_usrnbr" d = Some VNone ↔ creat_usrnbr t = None)
       ∧ (field "creat_time" d = Some VNone ↔ creat_time t = None)
       ∧ (field "data" d = Some VNone ↔ data t = None)
       ∧ (field "usrname" d = Some VNone ↔ usrname t = None)).
Proof.
  intros Hauth Hfault.
  rewrite receive_user_transaction_run by done. rewrite Hfault. simpl.
  eexists _, _, _. split; [done|]. simpl. split; [done|].
  unfold field. rewrite !single_record_payload by done.
  destruct (UserTransaction_dict_fields t) as (-> & -> & -> & -> & ->).
  split; [done|].
  repeat split; intros H; try (by rewrite H);
    injection H as H; by (apply of_int_None || apply of_str_None).
Qed.

(** ** Batch submission *)

Lemma batch_records_length ρ b n c ts :
  length (batch_records ρ b n c ts) = length ts.
Proof. revert n c. induction ts as [|t ts IH]; intros; simpl; [done|]. by rewrite IH. Qed.

Lemma batch_records_lookup ρ b ts : ∀ n c i t,
  ts !! i = Some t →
  batch_records ρ b n c ts !! i
  = Some (batch_record t (wall_clock ρ (n + i)%nat) b (c + Z.of_nat i)).
Proof.
  induction ts as [|t0 ts IH]; intros n c i t Hi; [done|].
  destruct i as [|i]; simpl in Hi.
  - injection Hi as ->. simpl. by rewrite Nat.add_0_r, Z.add_0_r.
  - change (batch_records ρ b n c (t0 :: ts) !! S i)
      with (batch_records ρ b (S n) (c + 1) ts !! i).
    rewrite (IH _ _ _ _ Hi).
    replace (S n + i)%nat with (n + S i)%nat by lia.
    replace (c + 1 + Z.of_nat i) with (c + Z.of_nat (S i)) by lia. done.
Qed.

Lemma batch_records_lookup_Some ρ b ts n c i d :
  batch_records ρ b n c ts !! i = Some d →
  ∃ t, ts !! i = Some t
       ∧ d = batch_record t (wall_clock ρ (n + i)%nat) b (c + Z.of_nat i).
Proof.
  intros H. assert (Hlt : (i < length ts)%nat).
  { rewrite <- (batch_records_length ρ b n c). by eapply lookup_lt_Some. }
  destruct (lookup_lt_is_Some_2 ts i Hlt) as [t Ht].
  exists t. split; [done|]. rewrite (batch_records_lookup _ _ _ _ _ _ _ Ht) in H.
  by injection H.
Qed.

(** One turn of the loop, on a state [σ]. *)
Lemma receive_batch_loop_cons ρ b t ts c σ :
  receive_batch_loop b (t :: ts) c ρ σ =
    let d := batch_record t (wall_clock ρ (clock_reads σ)) b
               (len (received_transactions σ)) in
    match append_fault ρ (append_calls σ) with
    | Some msg =>
        (Raise (Exception msg),
         {| received_transactions := received_transactions σ;
            log_records := log_records σ;
            clock_reads := S (clock_reads σ);
            append_calls := S (append_calls σ) |})
    | None =>
        receive_batch_loop b ts (c + 1) ρ
          {| received_transactions := received_transactions σ ++ [d];
             log_records := log_records σ ++
               [(INFO, "[POC V2 BATCH] Transaction received - User: "
                       +:+ str (of_str (usrname t)))];
             clock_reads := S (clock_reads σ);
             append_calls := S (append_calls σ) |}
    end.
Proof.
  simpl receive_batch_loop. unfold_M. simpl.
  destruct (append_fault ρ (append_calls σ)); done.
Qed.

(** The loop when none of its appends raises. *)
Lemma receive_batch_loop_ok ρ b ts : ∀ c σ,
  (∀ k, (k < length ts)%nat → append_fault ρ (append_calls σ + k)%nat = None) →
  ∃ σ',
    receive_batch_loop b ts c ρ σ = (Return (c + len ts), σ')
    ∧ received_transactions σ' =
        received_transactions σ
        ++ batch_records ρ b (clock_reads σ) (len (received_transactions σ)) ts
    ∧ clock_reads σ' = (clock_reads σ + length ts)%nat
    ∧ append_calls σ' = (append_calls σ + length ts)%nat.
Proof.
  induction ts as [|t ts IH]; intros c σ Hf.
  - exists σ. simpl. unfold_M. unfold len. simpl.
    rewrite Z.add_0_r, app_nil_r, !Nat.add_0_r. done.
  - rewrite receive_batch_loop_cons. simpl.
    rewrite <- (Nat.add_0_r (append_calls σ)), Hf by (simpl; lia).
    edestruct (IH (c + 1)) as (σ' & -> & Hs & Hc & Ha).
    2: { exists σ'. split; [f_equal; f_equal; unfold len; simpl; lia|].
         simpl in *. rewrite Hs, Hc, Ha, len_app, <- app_assoc. simpl.
         unfold len at 2. simpl. repeat split; try lia. }
    simpl. intros k Hk. rewrite <- Hf with (k := S k) by (simpl; lia).
    f_equal. lia.
Qed.

(** The loop when its [j]-th append is the first to raise. *)
Lemma receive_batch_loop_fault ρ b ts : ∀ c σ j msg,
  (j < length ts)%nat →
  (∀ k, (k < j)%nat → append_fault ρ (append_calls σ + k)%nat = None) →
  append_fault ρ (append_calls σ + j)%nat = Some msg →
  ∃ σ',
    receive_batch_loop b ts c ρ σ = (Raise (Exception msg), σ')
    ∧ received_transactions σ' =
        received_transactions σ
        ++ take j (batch_records ρ b (clock_reads σ)
                     (len (received_transactions σ)) ts).
Proof.
  induction ts as [|t ts IH]; intros c σ j msg Hj Hbefore Hat; simpl in Hj; [lia|].
  rewrite receive_batch_loop_cons. simpl. destruct j as [|j].
  - rewrite Nat.add_0_r in Hat. rewrite Hat. eexists. split; [done|].
    simpl. by rewrite app_nil_r.
  - rewrite <- (Nat.add_0_r (append_calls σ)), Hbefore by lia.
    edestruct (IH (c + 1)) as (σ' & -> & Hs); [| | |exists σ'; split; [done|]].
    4: { simpl in Hs. rewrite Hs, len_app, <- app_assoc. simpl. done. }
    + lia.
    + simpl. intros k Hk. rewrite <- Hbefore with (k := S k) by lia. f_equal. lia.
    + simpl. rewrite <- Hat. f_equal. lia.
Qed.

(** An authorized batch none of whose appends raises. *)
Lemma receive_batch_transactions_ok ρ σ ts tok :
  authorized ρ tok →
  (∀ k, (k < length ts)%nat → append_fault ρ (append_calls σ + k)%nat = None) →
  let batch_id := strftime_Ymd_HMS (wall_clock ρ (clock_reads σ)) in
  ∃ σ',
    receive_batch_transactions ts tok ρ σ =
      (Return {| Batch.status := "success";
                 Batch.message := "Batch of " +:+ pretty (len ts)
                                  +:+ " transactions received successfully";
                 Batch.batch_id := batch_id;
                 Batch.total_received := len (received_transactions σ) + len ts |},
       σ')
    ∧ received_transactions σ' =
        received_transactions σ
        ++ batch_records ρ batch_id (S (clock_reads σ))
             (len (received_transactions σ)) ts.
Proof.
  intros Hauth Hf batch_id. unfold receive_batch_transactions.
  rewrite (bind_Return _ _ _ _ () σ) by by apply check_token_ok.
  unfold try_except.
  rewrite (bind_Return _ _ _ _ (wall_clock ρ (clock_reads σ))
             {| received_transactions := received_transactions σ;
                log_records := log_records σ;
                clock_reads := S (clock_reads σ);
                append_calls := append_calls σ |}) by done.
  set (σ1 := {| received_transactions := received_transactions σ;
                log_records := log_records σ;
                clock_reads := S (clock_reads σ);
                append_calls := append_calls σ |}).
  destruct (receive_batch_loop_ok ρ batch_id ts 0 σ1) as (σ' & Hrun & Hs & _);
    [exact Hf|].
  simpl in Hrun, Hs. fold batch_id.
  rewrite (bind_Return _ _ _ _ _ _ Hrun). unfold_M. simpl.
  exists σ'. split; [|done]. rewrite Hs, len_app. unfold len at 3.
  by rewrite batch_records_length.
Qed.

(** An authorized batch whose [j]-th append is the first to raise. *)
Lemma receive_batch_transactions_fault ρ σ ts tok j msg :
  authorized ρ tok →
  (j < length ts)%nat →
  (∀ k, (k < j)%nat → append_fault ρ (append_calls σ + k)%nat = None) →
  append_fault ρ (append_calls σ + j)%nat = Some msg →
  let batch_id := strftime_Ymd_HMS (wall_clock ρ (clock_reads σ)) in
  ∃ σ',
    receive_batch_transactions ts tok ρ σ =
      (Raise (HTTPException 500 ("Error processing batch: " +:+ msg)), σ')
    ∧ received_transactions σ' =
        received_transactions σ
        ++ take j (batch_records ρ batch_id (S (clock_reads σ))
                     (len (received_transactions σ)) ts).
Proof.
  intros Hauth Hj Hbefore Hat batch_id. unfold receive_batch_transactions.
  rewrite (bind_Return _ _ _ _ () σ) by by apply check_token_ok.
  unfold try_except.
  rewrite (bind_Return _ _ _ _ (wall_clock ρ (clock_reads σ))
             {| received_transactions := received_transactions σ;
                log_records := log_records σ;
                clock_reads := S (clock_reads σ);
                append_calls := append_calls σ |}) by done.
  set (σ1 := {| received_transactions := received_transactions σ;
                log_records := log_records σ;
                clock_reads := S (clock_reads σ);
                append_calls := append_calls σ |}).
  destruct (receive_batch_loop_fault ρ batch_id ts 0 σ1 j msg) as (σ' & Hrun & Hs);
    [exact Hj|exact Hbefore|exact Hat|].
  simpl in Hrun, Hs. fold batch_id.
  rewrite (bind_Raise _ _ _ _ _ _ Hrun). unfold_M. simpl.
  eexists. split; [done|]. simpl. done.
Qed.

(** ** Rendering of clock readings *)

Lemma digit_code n : N_of_ascii (digit n) = Z.to_N (48 + n mod 10).
Proof.
  unfold digit. apply N_ascii_embedding.
  pose proof (Z.mod_pos_bound n 10 ltac:(lia)). lia.
Qed.

Lemma is_digit_digit n : is_digit (digit n) = true.
Proof.
  unfold is_digit. rewrite digit_code.
  pose proof (Z.mod_pos_bound n 10 ltac:(lia)).
  apply andb_true_iff. split; apply N.leb_le; lia.
Qed.

Lemma fmt_d_digits k n : 0 ≤ n < 10 ^ Z.of_nat k → fmt_d k n = digits k n.
Proof.
  intros [H0 H1]. unfold fmt_d.
  destruct (Z.leb_spec 0 n); [|lia]. destruct (Z.ltb_spec n (10 ^ Z.of_nat k)); [done|lia].
Qed.

Lemma strftime_Ymd_HMS_shape d :
  datetime_in_range d → is_Ymd_HMS (strftime_Ymd_HMS d) = true.
Proof.
  intros (Hy & Hm & Hd & HH & HM & HS & _). unfold strftime_Ymd_HMS.
  rewrite !fmt_d_digits by (simpl; lia).
  cbn [digits].
  repeat match goal with
         | |- context [digit ?x] =>
             generalize (is_digit_digit x); generalize (digit x); intros ? ?
         end.
  cbv -[is_digit].
  repeat match goal with H : is_digit _ = true |- _ => rewrite H; clear H end.
  reflexivity.
Qed.

Lemma batch_record_fields t now b c :
  field "poc_id" (batch_record t now b c) = Some (VInt (c + 1))
  ∧ field "batch_id" (batch_record t now b c) = Some (VStr b)
  ∧ field "received_at" (batch_record t now b c) = Some (VStr (isoformat now)).
Proof. unfold field, batch_record. repeat split; by simplify_map_eq. Qed.

Lemma batch_records_poc_ids_NoDup ρ b n c ts :
  NoDup (field "poc_id" <$> batch_records ρ b n c ts).
Proof.
  apply NoDup_alt. intros i j x Hi Hj.
  rewrite list_lookup_fmap in Hi, Hj.
  destruct (batch_records ρ b n c ts !! i) as [di|] eqn:Ei; [|done].
  destruct (batch_records ρ b n c ts !! j) as [dj|] eqn:Ej; [|done].
  apply batch_records_lookup_Some in Ei as (ti & _ & ->).
  apply batch_records_lookup_Some in Ej as (tj & _ & ->).
  simpl in Hi, Hj.
  destruct (batch_record_fields ti (wall_clock ρ (n + i)%nat) b (c + Z.of_nat i))
    as (Ei & _).
  destruct (batch_record_fields tj (wall_clock ρ (n + j)%nat) b (c + Z.of_nat j))
    as (Ej & _).
  rewrite Ei in Hi. rewrite Ej in Hj. rewrite <- Hi in Hj.
  injection Hj as Hj. lia.
Qed.

(** C5: an authorized batch of K payloads none of whose appends raises.  One
    batch id, of the form YYYYMMDD_HHMMSS, is taken from the clock reading
    made at the start of the call and is the batch id of every appended
    record; the K payloads are appended in input order, the i-th with
    sequence id count + i + 1, K distinct ids; the count grows by exactly K,
    which is also the number the acknowledgement reports; and an empty batch
    is acknowledged with a count of 0 and leaves the list as it was. *)
Theorem batch_submission_appends_all (ρ : env) (σ : state)
    (ts : list UserTransaction) (tok : option string) :
  authorized ρ tok →
  (∀ k, (k < length ts)%nat → append_fault ρ (append_calls σ + k)%nat = None) →
  datetime_in_range (wall_clock ρ (clock_reads σ)) →
  1000 ≤ year (wall_clock ρ (clock_reads σ)) →
  let batch_id := strftime_Ymd_HMS (wall_clock ρ (clock_reads σ)) in
  let count := len (received_transactions σ) in
  ∃ r σ' new,
    receive_batch_transactions ts tok ρ σ = (Return r, σ')
    ∧ (Batch.status r = "success"
       ∧ Batch.message r = "Batch of " +:+ pretty (len ts)
                           +:+ " transactions received successfully"
       ∧ Batch.batch_id r = batch_id
       ∧ Batch.total_received r = count + len ts)
    ∧ is_Ymd_HMS batch_id = true
    ∧ received_transactions σ' = received_transactions σ ++ new
    ∧ length new = length ts
    ∧ len (received_transactions σ') = count + len ts
    ∧ (∀ i t, ts !! i = Some t →
         ∃ d, new !! i = Some d
              ∧ field "batch_id" d = Some (VStr batch_id)
              ∧ field "poc_id" d = Some (VInt (count + Z.of_nat i + 1))
              ∧ ∀ k, k ≠ "poc_id" → k ≠ "batch_id" → k ≠ "received_at" →
                     field k d = field k (UserTransaction_dict t))
    ∧ NoDup (field "poc_id" <$> new)
    ∧ (ts = [] →
         Batch.message r = "Batch of 0 transactions received successfully"
         ∧ received_transactions σ' = received_transactions σ).
Proof.
  intros Hauth Hf Hrange _ batch_id count.
  destruct (receive_batch_transactions_ok ρ σ ts tok Hauth Hf) as (σ' & Hrun & Hs).
  fold batch_id count in Hrun, Hs.
  eexists _, σ', _. split; [exact Hrun|]. simpl.
  split; [done|]. split; [by apply strftime_Ymd_HMS_shape|].
  split; [exact Hs|]. split; [by apply batch_records_length|].
  split; [rewrite Hs, len_app; unfold len at 2; by rewrite batch_records_length|].
  split; [|split; [apply batch_records_poc_ids_NoDup|]].
  - intros i t Hi. eexists. split; [by apply batch_records_lookup|].
    destruct (batch_record_fields t (wall_clock ρ (S (clock_reads σ) + i)%nat)
                batch_id (count + Z.of_nat i)) as (Hp & Hb & _).
    split; [done|]. split; [done|].
    intros k ? ? ?. unfold field. by apply batch_record_payload.
  - intros ->. simpl in Hs. rewrite app_nil_r in Hs. split; [|done].
    vm_compute. reflexivity.
Qed.

(** C6: an authorized batch in which the append of the record at position j
    raises, after the j records before it were appended, ends as a whole
    with HTTP 500 whose detail carries the text of the exception, and the
    list holds the j records appended before the failure: nothing is rolled
    back. *)
Theorem batch_failure_keeps_appended (ρ : env) (σ : state)
    (ts : list UserTransaction) (tok : option string) (j : nat) (msg : string) :
  authorized ρ tok →
  (j < length ts)%nat →
  (∀ k, (k < j)%nat → append_fault ρ (append_calls σ + k)%nat = None) →
  append_fault ρ (append_calls σ + j)%nat = Some msg →
  let batch_id := strftime_Ymd_HMS (wall_clock ρ (clock_reads σ)) in
  let count := len (received_transactions σ) in
  ∃ σ' kept,
    receive_batch_transactions ts tok ρ σ =
      (Raise (HTTPException 500 ("Error processing batch: " +:+ msg)), σ')
    ∧ received_transactions σ' = received_transactions σ ++ kept
    ∧ length kept = j
    ∧ kept = take j (batch_records ρ batch_id (S (clock_reads σ)) count ts)
    ∧ ∀ i t, (i < j)%nat → ts !! i = Some t →
        ∃ d, kept !! i = Some d
             ∧ field "poc_id" d = Some (VInt (count + Z.of_nat i + 1))
             ∧ ∀ k, k ≠ "poc_id" → k ≠ "batch_id" → k ≠ "received_at" →
                    field k d = field k (UserTransaction_dict t).
Proof.
  intros Hauth Hj Hbefore Hat batch_id count.
  destruct (receive_batch_transactions_fault ρ σ ts tok j msg Hauth Hj Hbefore Hat)
    as (σ' & Hrun & Hs).
  fold batch_id count in Hs.
  eexists σ', _. split; [exact Hrun|]. split; [exact Hs|].
  split; [rewrite length_take, batch_records_length; lia|]. split; [done|].
  intros i t Hi Ht. eexists. split.
  - rewrite lookup_take_lt by done. by apply batch_records_lookup.
  - destruct (batch_record_fields t (wall_clock ρ (S (clock_reads σ) + i)%nat)
                batch_id (count + Z.of_nat i)) as (Hp & _).
    split; [done|]. intros k ? ? ?. unfold field. by apply batch_record_payload.
Qed.

(** ** The read routes *)

Lemma slice_from_last {A} (l : list A) (n : nat) :
  (0 < n)%nat →
  slice_from l (- Z.of_nat n) = drop (length l - Nat.min n (length l)) l.
Proof.
  intros Hn. unfold slice_from, len.
  destruct (Z.ltb_spec (- Z.of_nat n) 0); [|lia]. f_equal. lia.
Qed.

Lemma get_received_transactions_run ρ σ tok :
  authorized ρ tok →
  get_received_transactions tok ρ σ =
    (Return {| Recent.total_count := len (received_transactions σ);
               Recent.last_10_transactions :=
                 if nonempty (received_transactions σ)
                 then slice_from (received_transactions σ) (-10) else [];
               Recent.last_updated := isoformat (wall_clock ρ (clock_reads σ));
               Recent.poc_status := "active" |},
     {| received_transactions := received_transactions σ;
        log_records := log_records σ;
        clock_reads := S (clock_reads σ);
        append_calls := append_calls σ |}).
Proof.
  intros Hauth. unfold get_received_transactions.
  rewrite (bind_Return _ _ _ _ () σ) by by apply check_token_ok.
  unfold_M. done.
Qed.

(** C7: the authorized list-recent route never fails; its
    [last_10_transactions] are the last min(10, count) records of the list,
    in the order they were appended (a suffix of the list), and the empty
    list when nothing is stored.  The list itself is left as it was. *)
Theorem list_recent_is_suffix (ρ : env) (σ : state) (tok : option string) :
  authorized ρ tok →
  let store := received_transactions σ in
  ∃ r σ',
    get_received_transactions tok ρ σ = (Return r, σ')
    ∧ Recent.last_10_transactions r
      = drop (length store - Nat.min 10 (length store)) store
    ∧ length (Recent.last_10_transactions r) = Nat.min 10 (length store)
    ∧ Recent.last_10_transactions r `suffix_of` store
    ∧ (store = [] → Recent.last_10_transactions r = [])
    ∧ Recent.total_count r = len store
    ∧ received_transactions σ' = store.
Proof.
  intros Hauth store. rewrite get_received_transactions_run by done.
  eexists _, _. split; [done|].
  cbn [Recent.last_10_transactions Recent.total_count received_transactions].
  fold store.
  assert (Hl : (if nonempty store then slice_from store (-10) else [])
               = drop (length store - Nat.min 10 (length store)) store).
  { destruct store as [|d l]; [done|]. simpl nonempty. cbv iota.
    change (-10) with (- Z.of_nat 10). apply slice_from_last. lia. }
  rewrite Hl. split; [done|]. split; [rewrite length_drop; lia|].
  split; [apply suffix_drop|]. split; [by intros ->|]. done.
Qed.

(** ** What every reachable list looks like *)

Lemma authorized_dec ρ tok : authorized ρ tok ∨ ¬ authorized ρ tok.
Proof.
  unfold authorized.
  destruct (decide (WEBHOOK_TOKEN ρ = "")); [right; tauto|].
  destruct (decide (tok = Some (WEBHOOK_TOKEN ρ))); [by left|right; tauto].
Qed.

(** The list after the loop, whichever of its appends raise. *)
Lemma receive_batch_loop_store ρ b ts : ∀ c σ,
  ∃ j,
    received_transactions (snd (receive_batch_loop b ts c ρ σ)) =
      received_transactions σ
      ++ take j (batch_records ρ b (clock_reads σ)
                   (len (received_transactions σ)) ts).
Proof.
  induction ts as [|t ts IH]; intros c σ.
  - exists 0%nat. simpl. by rewrite app_nil_r.
  - rewrite receive_batch_loop_cons. simpl.
    destruct (append_fault ρ (append_calls σ)) as [msg|].
    + exists 0%nat. simpl. by rewrite app_nil_r.
    + edestruct IH as (j & ->). exists (S j). simpl.
      by rewrite len_app, <- app_assoc.
Qed.

Lemma receive_batch_transactions_store ρ σ ts tok :
  authorized ρ tok →
  ∃ j,
    received_transactions (snd (receive_batch_transactions ts tok ρ σ)) =
      received_transactions σ
      ++ take j (batch_records ρ
                   (strftime_Ymd_HMS (wall_clock ρ (clock_reads σ)))
                   (S (clock_reads σ)) (len (received_transactions σ)) ts).
Proof.
  intros Hauth. unfold receive_batch_transactions.
  rewrite (bind_Return _ _ _ _ () σ) by by apply check_token_ok.
  unfold try_except.
  set (σ1 := {| received_transactions := received_transactions σ;
                log_records := log_records σ;
                clock_reads := S (clock_reads σ);
                append_calls := append_calls σ |}).
  rewrite (bind_Return _ _ _ _ (wall_clock ρ (clock_reads σ)) σ1) by done.
  set (b := strftime_Ymd_HMS (wall_clock ρ (clock_reads σ))).
  destruct (receive_batch_loop_store ρ b ts 0 σ1) as (j & Hj).
  exists j. simpl in Hj. rewrite <- Hj.
  destruct (receive_batch_loop b ts 0 ρ σ1) as [[rc|e] σ'] eqn:E.
  - by rewrite (bind_Return _ _ _ _ _ _ E).
  - by rewrite (bind_Raise _ _ _ _ _ _ E).
Qed.

Lemma fmap_snd {A B} (g : A → B) (m : M A) ρ σ :
  snd ((g <$> m) ρ σ) = snd (m ρ σ).
Proof.
  destruct (m ρ σ) as [[a|e] σ'] eqn:E.
  - by rewrite (fmap_Return _ _ _ _ _ _ E).
  - by rewrite (fmap_Raise _ _ _ _ _ _ E).
Qed.

Lemma index_state {A} (l : list A) i ρ σ : snd (index l i ρ σ) = σ.
Proof.
  unfold index.
  by destruct (if (if i <? 0 then len l + i else i) <? 0 then None
               else l !! Z.to_nat (if i <? 0 then len l + i else i)).
Qed.

Lemma getitem_state d k ρ σ : snd (getitem d k ρ σ) = σ.
Proof. unfold getitem. by destruct (d !! k). Qed.

Lemma bind_state {A B} (m : M A) (f : A → M B) ρ σ :
  snd (m ρ σ) = σ → (∀ a, snd (f a ρ σ) = σ) → snd ((m ≫= f) ρ σ) = σ.
Proof.
  intros Hm Hf. unfold mbind, M_bind.
  destruct (m ρ σ) as [[a|e] σ']; simpl in Hm; subst σ'; [apply Hf|done].
Qed.

(** The statistics route changes nothing at all, whatever it returns. *)
Lemma poc_statistics_state ρ σ tok :
  authorized ρ tok → snd (poc_statistics tok ρ σ) = σ.
Proof.
  intros Hauth. unfold poc_statistics.
  rewrite (bind_Return _ _ _ _ () σ) by by apply check_token_ok.
  rewrite (bind_Return _ _ _ _ (received_transactions σ) σ) by done.
  destruct (nonempty (received_transactions σ)); simpl; [|done].
  apply bind_state; [apply index_state|intros first].
  apply bind_state; [apply getitem_state|intros first_transaction].
  apply bind_state; [apply index_state|intros last].
  apply bind_state; [apply getitem_state|intros last_transaction]. done.
Qed.

(** Every route only ever appends, and what it appends is well formed. *)
Lemma serve_appends ρ q σ :
  ∃ new,
    received_transactions (snd (serve q ρ σ)) = received_transactions σ ++ new
    ∧ ∀ i d, new !! i = Some d →
        stored_shape ρ (length (received_transactions σ) + i) d.
Proof.
  assert (Hnil : ∀ σ', received_transactions σ' = received_transactions σ →
    ∃ new, received_transactions σ' = received_transactions σ ++ new
      ∧ ∀ i d, new !! i = Some d →
          stored_shape ρ (length (received_transactions σ) + i) d).
  { intros σ' E. exists []. by rewrite app_nil_r. }
  destruct (presented_token q) as [tok|] eqn:Hq.
  2: { destruct q; simpl in Hq; try done; apply Hnil; done. }
  destruct (authorized_dec ρ tok) as [Hauth|Hna].
  2: { destruct (check_token_fails ρ tok σ Hna) as (e & σ' & Hc & _ & Hs & _).
       rewrite (serve_check_token_Raise _ _ _ _ _ _ Hq Hc). by apply Hnil. }
  destruct q; simpl in Hq; try done; injection Hq as ->; simpl serve;
    rewrite fmap_snd.
  - rewrite receive_user_transaction_run by done. simpl.
    destruct (append_fault ρ (append_calls σ)); [by apply Hnil|].
    eexists [_]. split; [done|]. intros [|i] d Hd; [|done].
    injection Hd as <-. eexists _, _. left.
    rewrite Nat.add_0_r. done.
  - destruct (receive_batch_transactions_store ρ σ body tok Hauth) as (j & ->).
    eexists. split; [done|]. intros i d Hd.
    apply lookup_take_Some in Hd as [Hd _].
    apply batch_records_lookup_Some in Hd as (t & _ & ->).
    eexists _, _. right. eexists. unfold len. f_equal. lia.
  - rewrite get_received_transactions_run by done. by apply Hnil.
  - rewrite poc_statistics_state by done. by apply Hnil.
Qed.

Lemma run_snoc ρ qs q σ :
  run ρ (qs ++ [q]) σ = snd (serve q ρ (run ρ qs σ)).
Proof. revert σ. induction qs as [|q0 qs IH]; intros σ; simpl; [done|apply IH]. Qed.

(** From import time on, the record at position [i] is well formed for [i]. *)
Lemma run_store_shape ρ qs :
  ∀ i d, received_transactions (run ρ qs initial) !! i = Some d →
         stored_shape ρ i d.
Proof.
  induction qs as [|q qs IH] using rev_ind; intros i d Hd; [done|].
  rewrite run_snoc in Hd.
  destruct (serve_appends ρ q (run ρ qs initial)) as (new & Hs & Hnew).
  rewrite Hs in Hd. apply lookup_app_Some in Hd as [Hd|[Hge Hd]].
  - by apply IH.
  - apply Hnew in Hd.
    by replace (length (received_transactions (run ρ qs initial))
                + (i - length (received_transactions (run ρ qs initial))))%nat
      with i in Hd by lia.
Qed.

Lemma stored_shape_fields ρ i d :
  stored_shape ρ i d →
  field "poc_id" d = Some (VInt (Z.of_nat i + 1))
  ∧ (∃ n, field "received_at" d = Some (VStr (isoformat (wall_clock ρ n))))
  ∧ (∃ o, field "usrname" d = Some (of_str o)).
Proof.
  intros (t & n & [->|(m & ->)]); unfold field, single_record, batch_record.
  - split; [by simplify_map_eq|]. split; [exists n; by simplify_map_eq|].
    exists (usrname t). rewrite !lookup_insert_ne by done.
    apply UserTransaction_dict_fields.
  - split; [by simplify_map_eq|]. split; [exists n; by simplify_map_eq|].
    exists (usrname t). rewrite !lookup_insert_ne by done.
    apply UserTransaction_dict_fields.
Qed.

(** ** The store *)

(** C3: at every moment of a process lifetime (after any sequence of
    requests, whatever they carried), the record at position i of the list,
    which was appended when the list held i records, has sequence id i + 1;
    the ids therefore grow strictly along the list and no two records share
    one; every record has its sequence id and a timestamp rendered from a
    clock reading; and serving one more request, of any kind, only extends
    the list: the records already there stay where and what they were. *)
Theorem store_is_numbered_and_append_only (ρ : env) (qs : list request)
    (q : request) :
  let store := received_transactions (run ρ qs initial) in
  let store' := received_transactions (snd (serve q ρ (run ρ qs initial))) in
  (∀ i d, store !! i = Some d →
     field "poc_id" d = Some (VInt (Z.of_nat i + 1))
     ∧ ∃ n, field "received_at" d = Some (VStr (isoformat (wall_clock ρ n))))
  ∧ (∀ i j di dj, (i < j)%nat → store !! i = Some di → store !! j = Some dj →
       ∃ a b, field "poc_id" di = Some (VInt a)
              ∧ field "poc_id" dj = Some (VInt b) ∧ a < b)
  ∧ (∃ new,
       store' = store ++ new
       ∧ ∀ k d, new !! k = Some d →
           field "poc_id" d = Some (VInt (len store + Z.of_nat k + 1)))
  ∧ (∀ i d, store !! i = Some d → store' !! i = Some d).
Proof.
  intros store store'.
  assert (Hshape : ∀ i d, store !! i = Some d → stored_shape ρ i d)
    by apply run_store_shape.
  split; [|split; [|split]].
  - intros i d Hd. destruct (stored_shape_fields ρ i d (Hshape i d Hd)) as (? & ? & _).
    done.
  - intros i j di dj Hij Hi Hj.
    destruct (stored_shape_fields ρ i di (Hshape i di Hi)) as (Hpi & _).
    destruct (stored_shape_fields ρ j dj (Hshape j dj Hj)) as (Hpj & _).
    eexists _, _. split; [done|]. split; [done|]. lia.
  - destruct (serve_appends ρ q (run ρ qs initial)) as (new & Hs & Hnew).
    exists new. split; [done|]. intros k d Hd.
    destruct (stored_shape_fields ρ _ d (Hnew k d Hd)) as (Hp & _).
    rewrite Hp. unfold len. fold store. do 2 f_equal. lia.
  - intros i d Hd.
    destruct (serve_appends ρ q (run ρ qs initial)) as (new & Hs & _).
    unfold store'. rewrite Hs. by apply lookup_app_l_Some.
Qed.

(** ** Statistics *)

Lemma index_head {A} (l : list A) x : head l = Some x → index l 0 = mret x.
Proof. destruct l; [done|]. intros [= ->]. done. Qed.

Lemma index_last {A} (l : list A) x : last l = Some x → index l (-1) = mret x.
Proof.
  intros H. rewrite last_lookup in H. unfold index, len.
  assert (length l ≠ 0%nat) by (destruct l; [done|simpl; lia]).
  change (-1 <? 0) with true. cbv iota.
  destruct (Z.ltb_spec (Z.of_nat (length l) + -1) 0); [lia|].
  replace (Z.to_nat (Z.of_nat (length l) + -1)) with (pred (length l)) by lia.
  by rewrite H.
Qed.

Lemma getitem_Some d k v : field k d = Some v → getitem d k = mret v.
Proof. unfold field, getitem. by intros ->. Qed.

Lemma dict_get_field d k v : field k d = Some v → dict_get d k = v.
Proof. unfold field, dict_get. by intros ->. Qed.

Lemma truthy_of_str o : truthy (of_str o) = true ↔ ∃ s, o = Some s ∧ s ≠ "".
Proof.
  destruct o as [s|]; simpl.
  - fold (truthy (VStr s)). rewrite truthy_VStr. split; [eauto|].
    by intros (? & [= <-] & ?).
  - split; [done|]. by intros (? & ? & _).
Qed.

(** C8: the authorized statistics route.  On an empty list it answers with
    the message "No transactions received yet", a total of 0 and the status
    "waiting_for_data".  Otherwise it reports the status "collecting_data",
    the number of records, a duplicate-free list of users whose members are
    exactly the non-empty user names that occur in stored records, the
    length of that list as the number of unique users, the timestamp of
    the first record of the list and the timestamp of its last record. *)
Theorem statistics_view (ρ : env) (qs : list request) (tok : option string) :
  authorized ρ tok →
  let σ := run ρ qs initial in
  let store := received_transactions σ in
  (store = [] →
     poc_statistics tok ρ σ =
       (Return (Stats.Waiting "No transactions received yet" 0 "waiting_for_data"),
        σ))
  ∧ (store ≠ [] →
     ∃ users d_first d_last f l,
       poc_statistics tok ρ σ =
         (Return (Stats.Collecting (len store) (len users) users
                    (VStr f) (VStr l) "collecting_data"), σ)
       ∧ NoDup users
       ∧ (∀ v, v ∈ users ↔
            ∃ s, v = VStr s ∧ s ≠ ""
                 ∧ ∃ d, d ∈ store ∧ field "usrname" d = Some (VStr s))
       ∧ head store = Some d_first
       ∧ field "received_at" d_first = Some (VStr f)
       ∧ last store = Some d_last
       ∧ field "received_at" d_last = Some (VStr l)).
Proof.
  intros Hauth σ store.
  assert (Hshape : ∀ i d, store !! i = Some d → stored_shape ρ i d)
    by apply run_store_shape.
  unfold poc_statistics.
  rewrite (bind_Return _ _ _ _ () σ) by by apply check_token_ok.
  rewrite (bind_Return _ _ _ _ store σ) by done.
  split; [by intros ->|]. intros Hne.
  destruct (head store) as [d_first|] eqn:Hfirst; [|by destruct store].
  destruct (last store) as [d_last|] eqn:Hlast;
    [|by apply last_None in Hlast].
  pose proof Hfirst as Hf0. rewrite head_lookup in Hf0.
  pose proof Hlast as Hl0. rewrite last_lookup in Hl0.
  destruct (stored_shape_fields ρ _ _ (Hshape _ _ Hf0)) as (_ & (nf & Hf) & _).
  destruct (stored_shape_fields ρ _ _ (Hshape _ _ Hl0)) as (_ & (nl & Hl) & _).
  eexists _, d_first, d_last, _, _.
  split.
  { assert (nonempty store = true) as -> by by destruct store.
    cbn [negb].
    rewrite (index_head _ _ Hfirst).
    rewrite (bind_Return _ _ _ _ d_first σ) by done.
    rewrite (getitem_Some _ _ _ Hf).
    rewrite (bind_Return _ _ _ _ (VStr (isoformat (wall_clock ρ nf))) σ) by done.
    rewrite (index_last _ _ Hlast).
    rewrite (bind_Return _ _ _ _ d_last σ) by done.
    rewrite (getitem_Some _ _ _ Hl).
    rewrite (bind_Return _ _ _ _ (VStr (isoformat (wall_clock ρ nl))) σ) by done.
    reflexivity. }
  split; [apply NoDup_remove_dups|].
  split.
  { intros v. unfold list_set. rewrite elem_of_remove_dups, list_elem_of_fmap. split.
    - intros (d & -> & Hd). apply list_elem_of_filter in Hd as [Ht Hd].
      pose proof Hd as Hd'. apply list_elem_of_lookup in Hd' as (i & Hi).
      destruct (stored_shape_fields ρ _ _ (Hshape _ _ Hi)) as (_ & _ & (o & Ho)).
      rewrite (dict_get_field _ _ _ Ho) in Ht |- *.
      apply truthy_of_str in Ht as (s & -> & Hs).
      exists s. split; [done|]. split; [done|]. by exists d.
    - intros (s & -> & Hs & d & Hd & Hu). exists d.
      rewrite (dict_get_field _ _ _ Hu). split; [done|].
      apply list_elem_of_filter. split; [|done].
      rewrite (dict_get_field _ _ _ Hu). by apply truthy_VStr. }
  done.
Qed.

(** ** Timestamps as strings: their order is the order of the readings *)

Lemma ascii_compare_digit x y :
  Ascii.compare (digit x) (digit y) = (x mod 10 ?= y mod 10).
Proof.
  unfold Ascii.compare. rewrite !digit_code.
  pose proof (Z.mod_pos_bound x 10 ltac:(lia)).
  pose proof (Z.mod_pos_bound y 10 ltac:(lia)).
  rewrite Z2N.inj_compare by lia. apply Z.add_compare_mono_l.
Qed.

Lemma compare_hi_lo B h1 l1 h2 l2 :
  0 ≤ l1 < B → 0 ≤ l2 < B →
  (l1 + B * h1 ?= l2 + B * h2) =
    match h1 ?= h2 with Eq => l1 ?= l2 | c => c end.
Proof.
  intros H1 H2. destruct (Z.compare_spec h1 h2) as [->|Hlt|Hgt].
  - rewrite !(Z.add_comm _ (B * h2)). apply Z.add_compare_mono_l.
  - apply Z.compare_lt_iff. nia.
  - apply Z.compare_gt_iff. nia.
Qed.

Lemma string_compare_cons c x y :
  String.compare (String c x) (String c y) = String.compare x y.
Proof. simpl. unfold Ascii.compare. by rewrite N.compare_refl. Qed.

Lemma string_compare_digits k : ∀ a b s s',
  String.compare (digits k a +:+ s) (digits k b +:+ s') =
    match a mod 10 ^ Z.of_nat k ?= b mod 10 ^ Z.of_nat k with
    | Eq => String.compare s s'
    | c => c
    end.
Proof.
  induction k as [|k IH]; intros a b s s'.
  - simpl. by rewrite !Z.mod_1_r.
  - cbn [digits].
    change (String.compare (String (digit (a / 10 ^ Z.of_nat k)) (digits k a +:+ s))
              (String (digit (b / 10 ^ Z.of_nat k)) (digits k b +:+ s')) = 
            match a mod 10 ^ Z.of_nat (S k) ?= b mod 10 ^ Z.of_nat (S k) with
            | Eq => String.compare s s'
            | c => c
            end).
    cbn [String.compare]. rewrite ascii_compare_digit, IH.
    assert (Hp : 0 < 10 ^ Z.of_nat k) by (apply Z.pow_pos_nonneg; lia).
    rewrite Nat2Z.inj_succ, Z.pow_succ_r, (Z.mul_comm 10) by lia.
    rewrite !Z.rem_mul_r by lia.
    rewrite compare_hi_lo by (apply Z.mod_pos_bound; lia).
    by destruct ((a / 10 ^ Z.of_nat k) mod 10 ?= (b / 10 ^ Z.of_nat k) mod 10).
Qed.

Lemma string_append_nil s : s +:+ "" = s.
Proof. induction s as [|c s IH]; [done|]. change (String c (s +:+ "") = String c s). by rewrite IH. Qed.

(** The optional [.ffffff] part orders like the microsecond field. *)
Lemma fraction_compare ua ub :
  0 ≤ ua < 1000000 → 0 ≤ ub < 1000000 →
  String.compare (if ua =? 0 then "" else "." +:+ fmt_d 6 ua)
                 (if ub =? 0 then "" else "." +:+ fmt_d 6 ub)
  = (ua ?= ub).
Proof.
  intros Ha Hb.
  destruct (Z.eqb_spec ua 0) as [->|Hna]; destruct (Z.eqb_spec ub 0) as [->|Hnb].
  - done.
  - symmetry. apply Z.compare_lt_iff. lia.
  - symmetry. apply Z.compare_gt_iff. lia.
  - rewrite !fmt_d_digits by (simpl; lia).
    change ("." +:+ digits 6 ua) with (String "." (digits 6 ua)).
    change ("." +:+ digits 6 ub) with (String "." (digits 6 ub)).
    rewrite string_compare_cons.
    rewrite <- (string_append_nil (digits 6 ua)), <- (string_append_nil (digits 6 ub)).
    rewrite string_compare_digits. simpl Z.of_nat.
    rewrite !Z.mod_small by lia. by destruct (ua ?= ub).
Qed.

Lemma isoformat_compare a b :
  datetime_in_range a → datetime_in_range b →
  String.compare (isoformat a) (isoformat b) = datetime_compare a b.
Proof.
  intros (Hy & Hm & Hd & HH & HM & HS & Hu) (Hy' & Hm' & Hd' & HH' & HM' & HS' & Hu').
  unfold isoformat. rewrite !(fmt_d_digits 4), !(fmt_d_digits 2) by (simpl; lia).
  repeat match goal with
         | |- context [String.append (String ?c EmptyString) ?x] =>
             change (String.append (String c EmptyString) x) with (String c x)
         end.
  repeat (rewrite string_compare_digits || rewrite string_compare_cons).
  rewrite fraction_compare by done.
  simpl Z.of_nat. rewrite !Z.mod_small by lia.
  unfold datetime_compare, datetime_key, lex_compare.
  repeat match goal with
         | |- context [match ?x ?= ?y with _ => _ end] => destruct (x ?= y); try done
         end.
Qed.

Lemma datetime_le_compare a b :
  datetime_in_range a → datetime_in_range b → datetime_le a b →
  String.compare (isoformat a) (isoformat b) ≠ Gt.
Proof. intros Ha Hb Hle. by rewrite isoformat_compare. Qed.

(** ** Timestamps within a batch *)

(** C10 (as amended): in every batch submission, whatever its outcome, each
    record that gets appended carries as [received_at] the rendering of a
    clock reading of its own: the record of the i-th payload that of the
    (i+1)-th reading made after the one the batch id was rendered from,
    while all of them carry that one batch id.  An authorized batch none of
    whose appends raises appends a record for every payload.  Records of one
    batch can therefore differ in [received_at] (the last part exhibits such
    a batch), and whenever the readings of the clock are in range and never
    go back, the [received_at] strings are non-decreasing in input order. *)
Theorem batch_timestamps_per_record :
  (∀ (ρ : env) (σ : state) (ts : list UserTransaction) (tok : option string),
     let batch_id := strftime_Ymd_HMS (wall_clock ρ (clock_reads σ)) in
     ∃ new,
       received_transactions (snd (receive_batch_transactions ts tok ρ σ))
         = received_transactions σ ++ new
       ∧ (∀ i d, new !! i = Some d →
            is_Some (ts !! i)
            ∧ field "batch_id" d = Some (VStr batch_id)
            ∧ field "received_at" d =
                Some (VStr (isoformat
                              (wall_clock ρ (S (clock_reads σ) + i)%nat))))
       ∧ (authorized ρ tok →
          (∀ k, (k < length ts)%nat →
                append_fault ρ (append_calls σ + k)%nat = None) →
          length new = length ts)
       ∧ ((∀ n, datetime_in_range (wall_clock ρ n)) →
          (∀ n m, (n ≤ m)%nat → datetime_le (wall_clock ρ n) (wall_clock ρ m)) →
          ∀ i j di dj si sj, (i ≤ j)%nat →
            new !! i = Some di → new !! j = Some dj →
            field "received_at" di = Some (VStr si) →
            field "received_at" dj = Some (VStr sj) →
            String.compare si sj ≠ Gt))
  ∧ (∃ d0 d1,
       received_transactions
         (snd (receive_batch_transactions [payload_of "alice"; payload_of "bob"]
                 (Some "abc123") steady_env initial)) = [d0; d1]
       ∧ field "batch_id" d0 = field "batch_id" d1
       ∧ field "received_at" d0 = Some (VStr "2024-03-09T07:05:00.000001")
       ∧ field "received_at" d1 = Some (VStr "2024-03-09T07:05:00.000002")).
Proof.
  split.
  - intros ρ σ ts tok batch_id.
    destruct (authorized_dec ρ tok) as [Hauth|Hna].
    2: { destruct (check_token_fails ρ tok σ Hna) as (e & σ' & Hc & _ & Hs & _).
         exists []. unfold receive_batch_transactions.
         rewrite (bind_Raise _ _ _ _ _ _ Hc). simpl. rewrite app_nil_r.
         split; [done|]. split; [done|]. split; [done|].
         intros _ _ i j di dj si sj _ Hi. done. }
    destruct (receive_batch_transactions_store ρ σ ts tok Hauth) as (j0 & Hs).
    fold batch_id in Hs.
    assert (Hfields : ∀ i d,
              take j0 (batch_records ρ batch_id (S (clock_reads σ))
                         (len (received_transactions σ)) ts) !! i = Some d →
              is_Some (ts !! i)
              ∧ field "batch_id" d = Some (VStr batch_id)
              ∧ field "received_at" d =
                  Some (VStr (isoformat
                                (wall_clock ρ (S (clock_reads σ) + i)%nat)))).
    { intros i d Hd. apply lookup_take_Some in Hd as [Hd _].
      apply batch_records_lookup_Some in Hd as (t & Ht & ->).
      destruct (batch_record_fields t (wall_clock ρ (S (clock_reads σ) + i)%nat)
                  batch_id (len (received_transactions σ) + Z.of_nat i))
        as (_ & Hb & Hr).
      split; [by exists t|]. done. }
    eexists. split; [exact Hs|]. split; [exact Hfields|]. split.
    + intros _ Hf.
      destruct (receive_batch_transactions_ok ρ σ ts tok Hauth Hf) as (σ' & Hrun & Hs').
      rewrite Hrun in Hs. simpl in Hs. rewrite Hs' in Hs.
      apply app_inv_head in Hs. fold batch_id in Hs. rewrite <- Hs.
      apply batch_records_length.
    + intros Hrange Hmono i j di dj si sj Hij Hi Hj Hsi Hsj.
      destruct (Hfields i di Hi) as (_ & _ & Hri).
      destruct (Hfields j dj Hj) as (_ & _ & Hrj).
      rewrite Hri in Hsi. rewrite Hrj in Hsj.
      injection Hsi as <-. injection Hsj as <-.
      apply datetime_le_compare; [apply Hrange|apply Hrange|apply Hmono; lia].
  - eexists _, _. split; [vm_compute; reflexivity|]. by vm_compute.
Qed.

(** C10 (as stated) fails: across the end of daylight saving time the two
    records of one batch share their batch id, and the first carries a
    later [received_at] than the second. *)
Lemma batch_timestamps_can_decrease :
  let store :=
    received_transactions
      (snd (receive_batch_transactions [payload_of "alice"; payload_of "bob"]
              (Some "abc123") fall_back_env initial)) in
  field "batch_id" <$> store
    = [Some (VStr "20241103_015959"); Some (VStr "20241103_015959")]
  ∧ field "received_at" <$> store
    = [Some (VStr "2024-11-03T01:59:59.999001");
       Some (VStr "2024-11-03T01:00:00.000500")]
  ∧ String.compare "2024-11-03T01:59:59.999001" "2024-11-03T01:00:00.000500" = Gt
  ∧ (∀ n, (n < 3)%nat → datetime_in_range (wall_clock fall_back_env n)).
Proof.
  split; [by vm_compute|]. split; [by vm_compute|]. split; [by vm_compute|].
  intros n Hn. destruct n as [|[|[|n]]]; [| | |lia]; vm_compute; intuition discriminate.
Qed.

(** ** The theorems at the sample deployments *)

Lemma steady_authorized : authorized steady_env (Some "abc123").
Proof. split; [discriminate|reflexivity]. Defined.

Lemma failing_authorized : authorized failing_env (Some "abc123").
Proof. split; [discriminate|reflexivity]. Defined.

Lemma steady_guess_rejected : ¬ authorized steady_env (Some "guess").
Proof. intros [_ H]. discriminate H. Defined.

Lemma steady_in_range n : datetime_in_range (wall_clock steady_env n).
Proof. unfold datetime_in_range. simpl. lia. Defined.

Lemma steady_monotone n m :
  (n ≤ m)%nat → datetime_le (wall_clock steady_env n) (wall_clock steady_env m).
Proof.
  intros Hnm. unfold datetime_le, datetime_compare. simpl.
  destruct (Z.compare_spec (Z.min (Z.of_nat n) 999999) (Z.min (Z.of_nat m) 999999));
    [discriminate|discriminate|lia].
Defined.

Lemma check_token_trichotomy_witness :
  check_token (Some "wrong") unconfigured_env initial =
    (Raise (HTTPException 500 "Server misconfiguration: WEBHOOK_TOKEN missing"),
     logged initial ERROR "[SECURITY] WEBHOOK_TOKEN not configured in environment")
  ∧ check_token None steady_env initial =
    (Raise (HTTPException 401 "Unauthorized"),
     logged initial WARNING "[SECURITY] Unauthorized access attempt with token: None")
  ∧ check_token (Some "abc123") steady_env initial = (Return (), initial).
Proof.
  split; [|split].
  - apply (proj1 (check_token_trichotomy unconfigured_env (Some "wrong") initial)).
    reflexivity.
  - apply (proj1 (proj2 (check_token_trichotomy steady_env None initial)));
      [discriminate|by left].
  - apply (proj2 (proj2 (check_token_trichotomy steady_env (Some "abc123") initial)));
      [discriminate|reflexivity].
Defined.

Lemma token_failure_short_circuits_witness :
  ∃ e σ',
    serve (POST_webhook_user_transactions (payload_of "alice") (Some "guess"))
      steady_env initial = (Raise e, σ')
    ∧ e = HTTPException 401 "Unauthorized"
    ∧ received_transactions σ' = [].
Proof.
  destruct (token_failure_short_circuits steady_env
              (POST_webhook_user_transactions (payload_of "alice") (Some "guess"))
              (Some "guess") initial eq_refl steady_guess_rejected)
    as (e & σ' & _ & Hs & [[_ He]|[He _]] & Hr & _).
  - discriminate He.
  - by exists e, σ'.
Defined.

Lemma store_is_numbered_and_append_only_witness :
  ∃ d,
    received_transactions
      (run steady_env
         [POST_webhook_user_transactions (payload_of "alice") (Some "abc123");
          POST_webhook_user_transactions_batch
            [payload_of "alice"; payload_of "bob"] (Some "abc123")]
         initial) !! 2%nat = Some d
    ∧ field "poc_id" d = Some (VInt 3).
Proof.
  eexists. split; [vm_compute; reflexivity|].
  eapply (proj1 (store_is_numbered_and_append_only steady_env
                   [POST_webhook_user_transactions (payload_of "alice") (Some "abc123");
                    POST_webhook_user_transactions_batch
                      [payload_of "alice"; payload_of "bob"] (Some "abc123")]
                   GET_health) 2%nat).
  vm_compute. reflexivity.
Defined.

Lemma single_submission_appends_one_witness :
  ∃ σ',
    receive_user_transaction (payload_of "alice") (Some "abc123") steady_env initial =
      (Return {| Single.status := "success";
                 Single.message := "User transaction received successfully";
                 Single.poc_id := VInt 1;
                 Single.user := VStr "alice";
                 Single.received_at := VStr "2024-03-09T07:05:00" |}, σ')
    ∧ len (received_transactions σ') = 1.
Proof.
  destruct (single_submission_appends_one steady_env initial (payload_of "alice")
              (Some "abc123") steady_authorized eq_refl)
    as (σ' & Hrun & _ & Hlen & _).
  exists σ'. split; [exact Hrun|exact Hlen].
Defined.

Lemma batch_submission_appends_all_witness :
  ∃ r σ',
    receive_batch_transactions [payload_of "alice"; payload_of "bob"]
      (Some "abc123") steady_env initial = (Return r, σ')
    ∧ Batch.batch_id r = "20240309_070500"
    ∧ Batch.total_received r = 2
    ∧ length (received_transactions σ') = 2%nat.
Proof.
  destruct (batch_submission_appends_all steady_env initial
              [payload_of "alice"; payload_of "bob"] (Some "abc123")
              steady_authorized (λ _ _, eq_refl) (steady_in_range 0)
              ltac:(simpl; lia))
    as (r & σ' & new & Hrun & (_ & _ & Hb & Ht) & _ & Hs & Hl & _).
  exists r, σ'. split; [exact Hrun|]. split; [exact Hb|]. split; [exact Ht|].
  rewrite Hs. exact Hl.
Defined.

Lemma batch_failure_keeps_appended_witness :
  ∃ σ' kept,
    receive_batch_transactions
      [payload_of "alice"; payload_of "bob"; payload_of "carol"]
      (Some "abc123") failing_env initial =
      (Raise (HTTPException 500 "Error processing batch: out of memory"), σ')
    ∧ received_transactions σ' = kept
    ∧ length kept = 2%nat.
Proof.
  assert (Hbefore : ∀ k, (k < 2)%nat →
            append_fault failing_env (append_calls initial + k)%nat = None).
  { intros [|[|k]] Hk; [reflexivity|reflexivity|lia]. }
  destruct (batch_failure_keeps_appended failing_env initial
              [payload_of "alice"; payload_of "bob"; payload_of "carol"]
              (Some "abc123") 2 "out of memory" failing_authorized
              ltac:(simpl; lia) Hbefore eq_refl)
    as (σ' & kept & Hrun & Hs & Hl & _).
  exists σ', kept. split; [exact Hrun|]. split; [exact Hs|exact Hl].
Defined.

Lemma list_recent_is_suffix_witness :
  ∃ r σ',
    get_received_transactions (Some "abc123") steady_env initial = (Return r, σ')
    ∧ Recent.last_10_transactions r = []
    ∧ Recent.total_count r = 0.
Proof.
  destruct (list_recent_is_suffix steady_env initial (Some "abc123") steady_authorized)
    as (r & σ' & Hrun & _ & _ & _ & Hnil & Hc & _).
  exists r, σ'. split; [exact Hrun|]. split; [by apply Hnil|exact Hc].
Defined.

Lemma statistics_view_witness :
  let qs := [POST_webhook_user_transactions (payload_of "alice") (Some "abc123");
             POST_webhook_user_transactions (payload_of "alice") (Some "abc123");
             POST_webhook_user_transactions (payload_of "bob") (Some "abc123")] in
  poc_statistics (Some "abc123") steady_env (run steady_env [] initial) =
    (Return (Stats.Waiting "No transactions received yet" 0 "waiting_for_data"),
     run steady_env [] initial)
  ∧ ∃ users f l,
      poc_statistics (Some "abc123") steady_env (run steady_env qs initial) =
        (Return (Stats.Collecting 3 (len users) users (VStr f) (VStr l)
                   "collecting_data"),
         run steady_env qs initial)
      ∧ NoDup users
      ∧ (VStr "bob" ∈ users ↔
           ∃ s, VStr "bob" = VStr s ∧ s ≠ ""
                ∧ ∃ d, d ∈ received_transactions (run steady_env qs initial)
                       ∧ field "usrname" d = Some (VStr s)).
Proof.
  intros qs. split.
  - apply (proj1 (statistics_view steady_env [] (Some "abc123") steady_authorized)).
    reflexivity.
  - assert (Hne : received_transactions (run steady_env qs initial) ≠ []).
    { intros H. apply (f_equal length) in H. vm_compute in H. discriminate H. }
    destruct (proj2 (statistics_view steady_env qs (Some "abc123") steady_authorized)
                Hne)
      as (users & d_first & d_last & f & l & Hrun & Hnd & Hmem & _).
    exists users, f, l. split; [exact Hrun|]. split; [exact Hnd|exact (Hmem _)].
Defined.

(** The example of the specification: two submissions by alice, then the
    statistics. *)
Example stats_after_two_submissions :
  let qs := [POST_webhook_user_transactions (payload_of "alice") (Some "abc123");
             POST_webhook_user_transactions (payload_of "alice") (Some "abc123")] in
  fst (poc_statistics (Some "abc123") steady_env (run steady_env qs initial)) =
    Return (Stats.Collecting 2 1 [VStr "alice"]
              (VStr "2024-03-09T07:05:00") (VStr "2024-03-09T07:05:00.000001")
              "collecting_data").
Proof. by vm_compute. Qed.

Lemma absent_fields_stay_absent_witness :
  ∃ d,
    received_transactions
      (snd (receive_user_transaction (payload_of "alice") (Some "abc123")
              steady_env initial)) = [d]
    ∧ field "data" d = Some VNone
    ∧ field "creat_usrnbr" d = Some (VInt 7).
Proof.
  destruct (absent_fields_stay_absent steady_env initial (payload_of "alice")
              (Some "abc123") steady_authorized eq_refl)
    as (r & σ' & d & Hrun & Hs & (_ & Hc & _ & Hd & _) & _).
  exists d. rewrite Hrun. split; [exact Hs|]. split; [exact Hd|exact Hc].
Defined.

Lemma batch_timestamps_per_record_witness :
  ∃ new,
    received_transactions
      (snd (receive_batch_transactions [payload_of "alice"; payload_of "bob"]
              (Some "abc123") steady_env initial)) = new
    ∧ length new = 2%nat
    ∧ ∀ i j di dj si sj, (i ≤ j)%nat →
        new !! i = Some di → new !! j = Some dj →
        field "received_at" di = Some (VStr si) →
        field "received_at" dj = Some (VStr sj) →
        String.compare si sj ≠ Gt.
Proof.
  destruct (proj1 batch_timestamps_per_record steady_env initial
              [payload_of "alice"; payload_of "bob"] (Some "abc123"))
    as (new & Hs & _ & Hlen & Hord).
  exists new. split; [exact Hs|].
  split; [exact (Hlen steady_authorized (λ _ _, eq_refl))|].
  exact (Hord steady_in_range steady_monotone).
Defined.

(** * Further properties *)

(** ** The routes without a guard *)

(** X1: [/health] and [/] ask for no token and never fail, whatever the
    configured secret (an empty one included): they report the number of
    stored records, which is also the sequence id of the most recent
    record, and leave the list and the log as they were. *)
Theorem unguarded_routes_report_the_count (ρ : env) (qs : list request) :
  let σ := run ρ qs initial in
  let store := received_transactions σ in
  (∃ h σ',
     health_check ρ σ = (Return h, σ')
     ∧ Health.status h = "healthy"
     ∧ Health.total_transactions h = len store
     ∧ received_transactions σ' = store
     ∧ log_records σ' = log_records σ
     ∧ ∀ d, last store = Some d →
         field "poc_id" d = Some (VInt (Health.total_transactions h)))
  ∧ (∃ r σ',
       root ρ σ = (Return r, σ')
       ∧ Root.status r = "running"
       ∧ Root.total_received r = len store
       ∧ received_transactions σ' = store
       ∧ log_records σ' = log_records σ).
Proof.
  intros σ store. split.
  - eexists _, _. split; [reflexivity|]. simpl. repeat (split; [done|]).
    intros d Hd. rewrite last_lookup in Hd.
    destruct (stored_shape_fields ρ _ d (run_store_shape ρ qs _ d Hd)) as (Hp & _).
    rewrite Hp. unfold len. fold σ store.
    apply lookup_lt_Some in Hd. fold σ store in Hd.
    do 2 f_equal. lia.
  - eexists _, _. split; [reflexivity|]. done.
Qed.

(** ** A single submission whose append raises *)

(** X2: when the append of an authorized single submission raises, the
    [except] clause answers HTTP 500 with the text of the exception in the
    detail, logs one ERROR record with that text, and the list is exactly
    as before the call. *)
Theorem single_failure_leaves_store (ρ : env) (σ : state)
    (t : UserTransaction) (tok : option string) (msg : string) :
  authorized ρ tok →
  append_fault ρ (append_calls σ) = Some msg →
  ∃ σ',
    receive_user_transaction t tok ρ σ =
      (Raise (HTTPException 500 ("Error processing transaction: " +:+ msg)), σ')
    ∧ received_transactions σ' = received_transactions σ
    ∧ log_records σ' =
        log_records σ
        ++ [(ERROR, "[POC V2 ERROR] Failed to process transaction: " +:+ msg)].
Proof.
  intros Hauth Hfault. rewrite receive_user_transaction_run by done.
  rewrite Hfault. simpl. eexists. split; [done|]. done.
Qed.

(** ** Requests that are not let through *)

Lemma serve_rejected_store ρ q σ :
  rejected ρ q →
  received_transactions (snd (serve q ρ σ)) = received_transactions σ.
Proof.
  intros (tok & Hq & Hna).
  destruct (check_token_fails ρ tok σ Hna) as (e & σ' & Hc & _ & Hs & _).
  by rewrite (serve_check_token_Raise _ _ _ _ _ _ Hq Hc).
Qed.

Lemma serve_unguarded_store ρ q σ :
  presented_token q = None →
  received_transactions (snd (serve q ρ σ)) = received_transactions σ.
Proof. by destruct q. Qed.

Lemma run_rejected_store ρ qs : ∀ σ,
  Forall (λ q, rejected ρ q ∨ presented_token q = None) qs →
  received_transactions (run ρ qs σ) = received_transactions σ.
Proof.
  induction qs as [|q qs IH]; intros σ Hall; [done|].
  apply Forall_cons in Hall as [Hq Hall]. simpl. rewrite IH by done.
  destruct Hq; [by apply serve_rejected_store|by apply serve_unguarded_store].
Qed.

(** X3: a sequence of requests none of which passes the guard (each is
    either rejected by [check_token] or goes to a route without a guard)
    leaves the list exactly as it was, however long the sequence and
    whatever the requests carry. *)
Theorem rejected_requests_never_change_store (ρ : env) (qs : list request)
    (σ : state) :
  Forall (λ q, rejected ρ q ∨ presented_token q = None) qs →
  received_transactions (run ρ qs σ) = received_transactions σ.
Proof. apply run_rejected_store. Qed.

Lemma unconfigured_rejects ρ q :
  WEBHOOK_TOKEN ρ = "" → rejected ρ q ∨ presented_token q = None.
Proof.
  intros He. destruct (presented_token q) as [tok|] eqn:Hq; [left|by right].
  exists tok. split; [done|]. by intros [Hne _].
Qed.

(** X4: with no secret configured the service stays misconfigured for
    good: after any sequence of requests the list is still empty, and every
    request to a guarded route, whatever header it presents, is answered
    HTTP 500. *)
Theorem unconfigured_server_stores_nothing (ρ : env) (qs : list request) :
  WEBHOOK_TOKEN ρ = "" →
  received_transactions (run ρ qs initial) = []
  ∧ ∀ q tok, presented_token q = Some tok →
      fst (serve q ρ (run ρ qs initial)) =
        Raise (HTTPException 500 "Server misconfiguration: WEBHOOK_TOKEN missing").
Proof.
  intros He. split.
  - rewrite run_rejected_store; [done|].
    apply Forall_forall. intros q _. by apply unconfigured_rejects.
  - intros q tok Hq.
    by rewrite (serve_check_token_Raise _ _ _ _ _ _ Hq
                  (check_token_misconfigured ρ tok _ He)).
Qed.

(** ** Submitting, then reading back *)

Lemma last_10_drop {A} (store : list A) :
  (if nonempty store then slice_from store (-10) else [])
  = drop (length store - Nat.min 10 (length store)) store.
Proof.
  destruct store as [|d l]; [done|]. cbn [nonempty].
  change (-10) with (- Z.of_nat 10). apply slice_from_last. lia.
Qed.

Lemma last_drop_lt {A} (l : list A) n :
  (n < length l)%nat → last (drop n l) = last l.
Proof.
  intros Hn. rewrite !last_lookup, lookup_drop, length_drop.
  f_equal. lia.
Qed.

(** X5: a record that was just submitted is what the list route shows
    last.  After an authorized single submission whose append does not
    raise, the authorized list route returns a [last_10_transactions] whose
    final element carries the sequence id, the timestamp and the user name
    of the acknowledgement, and a [total_count] one higher than before. *)
Theorem submitted_record_is_listed_last (ρ : env) (σ : state)
    (t : UserTransaction) (tok : option string) :
  authorized ρ tok →
  append_fault ρ (append_calls σ) = None →
  ∃ ack σ1 r σ2 d,
    receive_user_transaction t tok ρ σ = (Return ack, σ1)
    ∧ get_received_transactions tok ρ σ1 = (Return r, σ2)
    ∧ last (Recent.last_10_transactions r) = Some d
    ∧ field "poc_id" d = Some (Single.poc_id ack)
    ∧ field "received_at" d = Some (Single.received_at ack)
    ∧ field "usrname" d = Some (Single.user ack)
    ∧ Recent.total_count r = len (received_transactions σ) + 1.
Proof.
  intros Hauth Hfault.
  rewrite receive_user_transaction_run by done. rewrite Hfault.
  eexists _, _, _, _, _. split; [reflexivity|].
  rewrite get_received_transactions_run by done.
  split; [reflexivity|].
  cbn [Recent.last_10_transactions Recent.total_count received_transactions
       Single.poc_id Single.received_at Single.user].
  rewrite last_10_drop.
  split; [rewrite last_drop_lt by (rewrite !length_app; cbn [length]; lia);
          apply last_snoc|].
  unfold field, single_record.
  split; [by rewrite lookup_insert_eq|].
  split; [rewrite lookup_insert_ne by done; by rewrite lookup_insert_eq|].
  split; [rewrite !lookup_insert_ne by done; apply UserTransaction_dict_fields|].
  by rewrite len_app.
Qed.

(** X6: what the list route returns is numbered without gaps up to the
    total.  On any list a process can reach, the k-th of the returned
    records carries the sequence id [total_count - n + k + 1], where n is
    the number of records returned; the last one carries [total_count]. *)
Theorem recent_ids_are_consecutive (ρ : env) (qs : list request)
    (tok : option string) :
  authorized ρ tok →
  ∃ r σ',
    get_received_transactions tok ρ (run ρ qs initial) = (Return r, σ')
    ∧ ∀ k d, Recent.last_10_transactions r !! k = Some d →
        field "poc_id" d =
          Some (VInt (Recent.total_count r
                      - len (Recent.last_10_transactions r)
                      + Z.of_nat k + 1)).
Proof.
  intros Hauth. rewrite get_received_transactions_run by done.
  eexists _, _. split; [reflexivity|].
  cbn [Recent.last_10_transactions Recent.total_count].
  rewrite last_10_drop. intros k d Hd.
  rewrite lookup_drop in Hd.
  destruct (stored_shape_fields ρ _ d (run_store_shape ρ qs _ d Hd)) as (Hp & _).
  rewrite Hp. unfold len. rewrite length_drop. do 2 f_equal. lia.
Qed.

(** ** The shape of what is stored *)




Lemma single_record_no_batch_id t now c :
  field "batch_id" (single_record t now c) = None.
Proof.
  unfold field, single_record, UserTransaction_dict.
  rewrite !lookup_insert_ne by done. apply lookup_empty.
Qed.

Lemma run_store_elem_shape ρ qs d :
  d ∈ received_transactions (run ρ qs initial) → ∃ i, stored_shape ρ i d.
Proof.
  intros Hd. apply list_elem_of_lookup in Hd as (i & Hi).
  exists i. by eapply run_store_shape.
Qed.


(** X8: with a clock whose readings are in range and show a year of four
    digits, every batch id found in the list, at any moment of a process
    lifetime, is a string of the form YYYYMMDD_HHMMSS. *)
Theorem stored_batch_ids_well_formed (ρ : env) (qs : list request)
    (d : gmap string pyval) (v : pyval) :
  (∀ n, datetime_in_range (wall_clock ρ n) ∧ 1000 ≤ year (wall_clock ρ n)) →
  d ∈ received_transactions (run ρ qs initial) →
  field "batch_id" d = Some v →
  ∃ b, v = VStr b ∧ is_Ymd_HMS b = true.
Proof.
  intros Hclock Hd Hv.
  destruct (run_store_elem_shape ρ qs d Hd) as (i & t & n & [->|(m & ->)]).
  - by rewrite single_record_no_batch_id in Hv.
  - destruct (batch_record_fields t (wall_clock ρ n)
                (strftime_Ymd_HMS (wall_clock ρ m)) (Z.of_nat i)) as (_ & Hb & _).
    rewrite Hb in Hv. injection Hv as <-. eexists. split; [done|].
    apply strftime_Ymd_HMS_shape, Hclock.
Qed.

(** ** The whole state after a batch *)

Lemma state_eq (σ σ' : state) :
  received_transactions σ = received_transactions σ' →
  log_records σ = log_records σ' →
  clock_reads σ = clock_reads σ' →
  append_calls σ = append_calls σ' →
  σ = σ'.
Proof. destruct σ, σ'. simpl. by intros -> -> -> ->. Qed.

(** The loop, in full, when none of its appends raises. *)
Lemma receive_batch_loop_ok_state ρ b ts : ∀ c σ,
  (∀ k, (k < length ts)%nat → append_fault ρ (append_calls σ + k)%nat = None) →
  receive_batch_loop b ts c ρ σ =
    (Return (c + len ts),
     {| received_transactions :=
          received_transactions σ
          ++ batch_records ρ b (clock_reads σ) (len (received_transactions σ)) ts;
        log_records := log_records σ ++ (batch_info <$> ts);
        clock_reads := (clock_reads σ + length ts)%nat;
        append_calls := (append_calls σ + length ts)%nat |}).
Proof.
  induction ts as [|t ts IH]; intros c σ Hf.
  - simpl. unfold_M. unfold len. simpl. f_equal; [f_equal; lia|].
    apply state_eq; simpl; rewrite ?app_nil_r; lia || done.
  - rewrite receive_batch_loop_cons. cbv zeta.
    rewrite <- (Nat.add_0_r (append_calls σ)), Hf by (simpl; lia).
    rewrite IH.
    2: { simpl. intros k Hk. rewrite <- Hf with (k := S k) by (simpl; lia).
         f_equal. lia. }
    f_equal; [f_equal; unfold len; simpl; lia|].
    apply state_eq; simpl.
    + by rewrite len_app, <- app_assoc.
    + by rewrite <- app_assoc.
    + lia.
    + lia.
Qed.

(** The loop, in full, when its [j]-th append is the first to raise. *)
Lemma receive_batch_loop_fault_state ρ b ts : ∀ c σ j msg,
  (j < length ts)%nat →
  (∀ k, (k < j)%nat → append_fault ρ (append_calls σ + k)%nat = None) →
  append_fault ρ (append_calls σ + j)%nat = Some msg →
  receive_batch_loop b ts c ρ σ =
    (Raise (Exception msg),
     {| received_transactions :=
          received_transactions σ
          ++ take j (batch_records ρ b (clock_reads σ)
                       (len (received_transactions σ)) ts);
        log_records := log_records σ ++ (batch_info <$> take j ts);
        clock_reads := (clock_reads σ + S j)%nat;
        append_calls := (append_calls σ + S j)%nat |}).
Proof.
  induction ts as [|t ts IH]; intros c σ j msg Hj Hbefore Hat; simpl in Hj; [lia|].
  rewrite receive_batch_loop_cons. cbv zeta. destruct j as [|j].
  - rewrite Nat.add_0_r in Hat. rewrite Hat. f_equal.
    apply state_eq; simpl; rewrite ?app_nil_r; lia || done.
  - rewrite <- (Nat.add_0_r (append_calls σ)), Hbefore by lia.
    rewrite (IH _ _ j msg).
    + f_equal. apply state_eq; simpl.
      * by rewrite len_app, <- app_assoc.
      * by rewrite <- app_assoc.
      * lia.
      * lia.
    + lia.
    + simpl. intros k Hk. rewrite <- Hbefore with (k := S k) by lia. f_equal. lia.
    + simpl. rewrite <- Hat. f_equal. lia.
Qed.

Lemma receive_batch_transactions_ok_state ρ σ ts tok :
  authorized ρ tok →
  (∀ k, (k < length ts)%nat → append_fault ρ (append_calls σ + k)%nat = None) →
  let batch_id := strftime_Ymd_HMS (wall_clock ρ (clock_reads σ)) in
  receive_batch_transactions ts tok ρ σ =
    (Return {| Batch.status := "success";
               Batch.message := "Batch of " +:+ pretty (len ts)
                                +:+ " transactions received successfully";
               Batch.batch_id := batch_id;
               Batch.total_received := len (received_transactions σ) + len ts |},
     {| received_transactions :=
          received_transactions σ
          ++ batch_records ρ batch_id (S (clock_reads σ))
               (len (received_transactions σ)) ts;
        log_records := log_records σ ++ (batch_info <$> ts);
        clock_reads := (S (clock_reads σ) + length ts)%nat;
        append_calls := (append_calls σ + length ts)%nat |}).
Proof.
  intros Hauth Hf batch_id. unfold receive_batch_transactions.
  rewrite (bind_Return _ _ _ _ () σ) by by apply check_token_ok.
  unfold try_except.
  set (σ1 := {| received_transactions := received_transactions σ;
                log_records := log_records σ;
                clock_reads := S (clock_reads σ);
                append_calls := append_calls σ |}).
  rewrite (bind_Return _ _ _ _ (wall_clock ρ (clock_reads σ)) σ1) by done.
  fold batch_id.
  rewrite (bind_Return _ _ _ _ _ _
             (receive_batch_loop_ok_state ρ batch_id ts 0 σ1 Hf)).
  unfold_M. simpl. do 2 f_equal. rewrite len_app. unfold len at 3.
  by rewrite batch_records_length.
Qed.

Lemma receive_batch_transactions_fault_state ρ σ ts tok j msg :
  authorized ρ tok →
  (j < length ts)%nat →
  (∀ k, (k < j)%nat → append_fault ρ (append_calls σ + k)%nat = None) →
  append_fault ρ (append_calls σ + j)%nat = Some msg →
  let batch_id := strftime_Ymd_HMS (wall_clock ρ (clock_reads σ)) in
  receive_batch_transactions ts tok ρ σ =
    (Raise (HTTPException 500 ("Error processing batch: " +:+ msg)),
     {| received_transactions :=
          received_transactions σ
          ++ take j (batch_records ρ batch_id (S (clock_reads σ))
                       (len (received_transactions σ)) ts);
        log_records :=
          (log_records σ ++ (batch_info <$> take j ts))
          ++ [(ERROR, "[POC V2 ERROR] Failed to process batch: " +:+ msg)];
        clock_reads := (S (clock_reads σ) + S j)%nat;
        append_calls := (append_calls σ + S j)%nat |}).
Proof.
  intros Hauth Hj Hbefore Hat batch_id. unfold receive_batch_transactions.
  rewrite (bind_Return _ _ _ _ () σ) by by apply check_token_ok.
  unfold try_except.
  set (σ1 := {| received_transactions := received_transactions σ;
                log_records := log_records σ;
                clock_reads := S (clock_reads σ);
                append_calls := append_calls σ |}).
  rewrite (bind_Return _ _ _ _ (wall_clock ρ (clock_reads σ)) σ1) by done.
  fold batch_id.
  rewrite (bind_Raise _ _ _ _ _ _
             (receive_batch_loop_fault_state ρ batch_id ts 0 σ1 j msg Hj Hbefore Hat)).
  unfold_M. simpl. done.
Qed.

(** ** What a batch leaves in the log *)

(** X9: the log tells what a batch stored, although the response of a
    failed batch does not.  An authorized batch none of whose appends
    raises logs one INFO record per payload, in input order, naming the
    user; one whose append at position j is the first to raise logs the
    INFO records of the j payloads that were stored and then a single ERROR
    record with the text of the exception.  In both cases the number of
    INFO records is the number of records the call added to the list. *)
Theorem batch_log_tells_what_was_stored (ρ : env) (σ : state)
    (ts : list UserTransaction) (tok : option string) :
  authorized ρ tok →
  let σ' := snd (receive_batch_transactions ts tok ρ σ) in
  ((∀ k, (k < length ts)%nat → append_fault ρ (append_calls σ + k)%nat = None) →
     log_records σ' = log_records σ ++ (batch_info <$> ts)
     ∧ length (received_transactions σ')
       = (length (received_transactions σ) + length ts)%nat)
  ∧ (∀ j msg,
       (j < length ts)%nat →
       (∀ k, (k < j)%nat → append_fault ρ (append_calls σ + k)%nat = None) →
       append_fault ρ (append_calls σ + j)%nat = Some msg →
       log_records σ' =
         log_records σ ++ (batch_info <$> take j ts)
         ++ [(ERROR, "[POC V2 ERROR] Failed to process batch: " +:+ msg)]
       ∧ length (received_transactions σ')
         = (length (received_transactions σ) + j)%nat).
Proof.
  intros Hauth σ'. split.
  - intros Hf. unfold σ'.
    rewrite receive_batch_transactions_ok_state by done. simpl.
    split; [done|]. by rewrite length_app, batch_records_length.
  - intros j msg Hj Hbefore Hat. unfold σ'.
    rewrite (receive_batch_transactions_fault_state ρ σ ts tok j msg) by done.
    simpl. split; [by rewrite <- app_assoc|].
    rewrite length_app, length_take, batch_records_length. lia.
Qed.

(** ** Nothing is recognised as a repetition *)

(** X10: a failed batch that is sent again is stored again from its first
    payload.  If the append at position j is the first to raise and the
    same batch is then re-sent without any failure, the list ends with the
    j records kept from the first attempt followed by a record for every
    payload of the second: each of the first j payloads is now stored
    twice, with the same payload fields under two different sequence
    ids. *)
Theorem retried_batch_is_stored_again (ρ : env) (σ : state)
    (ts : list UserTransaction) (tok : option string) (j : nat) (msg : string) :
  authorized ρ tok →
  (j < length ts)%nat →
  (∀ k, (k < j)%nat → append_fault ρ (append_calls σ + k)%nat = None) →
  append_fault ρ (append_calls σ + j)%nat = Some msg →
  (∀ k, (k < length ts)%nat →
        append_fault ρ (append_calls σ + S j + k)%nat = None) →
  ∃ σ1 r σ2 kept again,
    receive_batch_transactions ts tok ρ σ =
      (Raise (HTTPException 500 ("Error processing batch: " +:+ msg)), σ1)
    ∧ receive_batch_transactions ts tok ρ σ1 = (Return r, σ2)
    ∧ received_transactions σ2 = received_transactions σ ++ kept ++ again
    ∧ length kept = j
    ∧ length again = length ts
    ∧ Batch.total_received r
      = len (received_transactions σ) + Z.of_nat j + len ts
    ∧ ∀ i t, (i < j)%nat → ts !! i = Some t →
        ∃ d1 d2 n1 n2,
          kept !! i = Some d1 ∧ again !! i = Some d2
          ∧ (∀ k, k ≠ "poc_id" → k ≠ "batch_id" → k ≠ "received_at" →
                  field k d1 = field k d2)
          ∧ field "poc_id" d1 = Some (VInt n1)
          ∧ field "poc_id" d2 = Some (VInt n2)
          ∧ n1 < n2.
Proof.
  intros Hauth Hj Hbefore Hat Hafter.
  rewrite (receive_batch_transactions_fault_state ρ σ ts tok j msg) by done.
  cbv zeta.
  eexists _, _, _, _, _. split; [reflexivity|].
  rewrite receive_batch_transactions_ok_state by done.
  split; [reflexivity|].
  cbn [received_transactions clock_reads Batch.total_received].
  split; [by rewrite <- app_assoc|].
  split; [rewrite length_take, batch_records_length; lia|].
  split; [apply batch_records_length|].
  split.
  { rewrite len_app. unfold len at 2.
    rewrite length_take, batch_records_length. lia. }
  intros i t Hi Ht. eexists _, _, _, _.
  split; [rewrite lookup_take_lt by done; by apply batch_records_lookup|].
  split; [by apply batch_records_lookup|].
  split.
  { intros k ? ? ?. unfold field. by rewrite !batch_record_payload. }
  split; [apply batch_record_fields|]. split; [apply batch_record_fields|].
  rewrite len_app. unfold len at 3.
  rewrite length_take, batch_records_length. lia.
Qed.

(** X11: the single route does not recognise a payload it has already
    stored.  Two authorized submissions of the same payload, one after the
    other and neither failing, are acknowledged with the sequence ids
    count + 1 and count + 2, and the list grows by two records that agree on
    every payload field. *)
Theorem resubmission_is_stored_twice (ρ : env) (σ : state)
    (t : UserTransaction) (tok : option string) :
  authorized ρ tok →
  append_fault ρ (append_calls σ) = None →
  append_fault ρ (S (append_calls σ)) = None →
  ∃ ack1 σ1 ack2 σ2 d1 d2,
    receive_user_transaction t tok ρ σ = (Return ack1, σ1)
    ∧ receive_user_transaction t tok ρ σ1 = (Return ack2, σ2)
    ∧ Single.poc_id ack1 = VInt (len (received_transactions σ) + 1)
    ∧ Single.poc_id ack2 = VInt (len (received_transactions σ) + 2)
    ∧ received_transactions σ2 = received_transactions σ ++ [d1; d2]
    ∧ ∀ k, k ≠ "poc_id" → k ≠ "received_at" → field k d1 = field k d2.
Proof.
  intros Hauth Hf1 Hf2.
  rewrite receive_user_transaction_run by done. rewrite Hf1. cbv zeta.
  eexists _, _, _, _, _, _. split; [reflexivity|].
  rewrite receive_user_transaction_run by done.
  cbn [append_calls received_transactions clock_reads]. rewrite Hf2.
  split; [reflexivity|].
  cbn [Single.poc_id received_transactions].
  split; [done|]. split; [rewrite len_app; unfold len at 2; simpl; f_equal; lia|].
  split; [by rewrite <- app_assoc|].
  intros k ? ?. unfold field. by rewrite !single_record_payload.
Qed.

(** ** Submitting, then asking for the statistics *)

Lemma poc_statistics_collecting ρ σ tok d_first d_last f l :
  authorized ρ tok →
  head (received_transactions σ) = Some d_first →
  last (received_transactions σ) = Some d_last →
  field "received_at" d_first = Some f →
  field "received_at" d_last = Some l →
  poc_statistics tok ρ σ =
    (Return (Stats.Collecting (len (received_transactions σ))
               (len (list_set ((λ t, dict_get t "usrname")
                               <$> filter (λ t, truthy (dict_get t "usrname") = true)
                                     (received_transactions σ))))
               (list_set ((λ t, dict_get t "usrname")
                          <$> filter (λ t, truthy (dict_get t "usrname") = true)
                                (received_transactions σ)))
               f l "collecting_data"), σ).
Proof.
  intros Hauth Hfirst Hlast Hf Hl. unfold poc_statistics.
  rewrite (bind_Return _ _ _ _ () σ) by by apply check_token_ok.
  rewrite (bind_Return _ _ _ _ (received_transactions σ) σ) by done.
  assert (nonempty (received_transactions σ) = true) as ->
    by by destruct (received_transactions σ).
  cbn [negb].
  rewrite (index_head _ _ Hfirst).
  rewrite (bind_Return _ _ _ _ d_first σ) by done.
  rewrite (getitem_Some _ _ _ Hf).
  rewrite (bind_Return _ _ _ _ f σ) by done.
  rewrite (index_last _ _ Hlast).
  rewrite (bind_Return _ _ _ _ d_last σ) by done.
  rewrite (getitem_Some _ _ _ Hl).
  rewrite (bind_Return _ _ _ _ l σ) by done.
  reflexivity.
Qed.

Lemma length_remove_dups_le (l : list pyval) :
  (length (remove_dups l) ≤ length l)%nat.
Proof.
  induction l as [|x l IH]; simpl; [done|].
  destruct (decide_rel elem_of x l); simpl; lia.
Qed.

(** X12: a user who has just submitted shows in the statistics.  On any
    list a process can reach, after an authorized single submission with a
    non-empty user name whose append does not raise, the authorized
    statistics route succeeds, counts one record more than before, reports
    as [last_transaction] the timestamp of the acknowledgement, lists that
    user, and never reports more unique users than records. *)
Theorem submitted_user_shows_in_statistics (ρ : env) (qs : list request)
    (t : UserTransaction) (tok : option string) (u : string) :
  authorized ρ tok →
  usrname t = Some u →
  u ≠ "" →
  append_fault ρ (append_calls (run ρ qs initial)) = None →
  ∃ ack σ1 users f,
    receive_user_transaction t tok ρ (run ρ qs initial) = (Return ack, σ1)
    ∧ poc_statistics tok ρ σ1 =
        (Return (Stats.Collecting
                   (len (received_transactions (run ρ qs initial)) + 1)
                   (len users) users f (Single.received_at ack)
                   "collecting_data"), σ1)
    ∧ VStr u ∈ users
    ∧ 1 ≤ len users ≤ len (received_transactions (run ρ qs initial)) + 1.
Proof.
  intros Hauth Hu Hne Hfault.
  set (σ := run ρ qs initial) in *.
  rewrite receive_user_transaction_run by done. rewrite Hfault. cbv zeta.
  set (d := single_record t (wall_clock ρ (clock_reads σ))
              (len (received_transactions σ))).
  set (σ1 := {| received_transactions := received_transactions σ ++ [d] |}).
  assert (Hd : field "received_at" d
               = Some (VStr (isoformat (wall_clock ρ (clock_reads σ))))).
  { unfold field, d, single_record.
    rewrite lookup_insert_ne by done. by rewrite lookup_insert_eq. }
  assert (Hdu : dict_get d "usrname" = VStr u).
  { apply dict_get_field. unfold field, d.
    rewrite single_record_payload by done.
    destruct (UserTransaction_dict_fields t) as (_ & _ & _ & _ & ->).
    by rewrite Hu. }
  assert (Hfirst : ∃ d_first f, head (received_transactions σ1) = Some d_first
                                ∧ field "received_at" d_first = Some f).
  { simpl. destruct (received_transactions σ) as [|d0 rest] eqn:Es.
    - exists d. eexists. split; [done|exact Hd].
    - assert (Hd0 : received_transactions σ !! 0%nat = Some d0) by by rewrite Es.
      destruct (stored_shape_fields ρ _ d0 (run_store_shape ρ qs _ d0 Hd0))
        as (_ & (n & Hr) & _).
      exists d0. eexists. split; [done|exact Hr]. }
  destruct Hfirst as (d_first & f & Hfirst & Hf).
  eexists _, σ1, _, f. split; [reflexivity|].
  split.
  { rewrite (poc_statistics_collecting ρ σ1 tok d_first d f _ Hauth Hfirst
               (last_snoc d _) Hf Hd).
    cbn [received_transactions σ1 Single.received_at].
    by rewrite len_app. }
  set (users := list_set _).
  assert (Hin : VStr u ∈ users).
  { unfold users, list_set. rewrite elem_of_remove_dups, list_elem_of_fmap.
    exists d. split; [done|]. apply list_elem_of_filter.
    split; [rewrite Hdu; by apply truthy_VStr|].
    simpl. apply elem_of_app. right. by apply list_elem_of_singleton. }
  split; [exact Hin|]. split.
  - destruct users; [by apply elem_of_nil in Hin|]. unfold len. simpl. lia.
  - unfold users, list_set, len.
    pose proof (length_remove_dups_le
      ((λ t0, dict_get t0 "usrname")
       <$> filter (λ t0, truthy (dict_get t0 "usrname") = true)
             (received_transactions σ1))) as H1.
    rewrite length_fmap in H1.
    pose proof (length_filter (λ t0, truthy (dict_get t0 "usrname") = true)
                  (received_transactions σ1)) as H2.
    assert (length (received_transactions σ1)
            = S (length (received_transactions σ))) as H3
      by (simpl; rewrite length_app; simpl; lia).
    change (received_transactions σ1)
      with (received_transactions σ ++ [d]) in H1, H2, H3.
    lia.
Qed.

(** ** The further properties at the sample deployments *)

Lemma unguarded_routes_report_the_count_witness :
  ∃ h σ',
    health_check unconfigured_env (run unconfigured_env two_submissions initial)
      = (Return h, σ')
    ∧ Health.status h = "healthy"
    ∧ Health.total_transactions h = 0.
Proof.
  destruct (proj1 (unguarded_routes_report_the_count unconfigured_env two_submissions))
    as (h & σ' & Hrun & Hst & Htot & _).
  exists h, σ'. split; [exact Hrun|]. split; [exact Hst|exact Htot].
Defined.

Lemma single_failure_leaves_store_witness :
  ∃ σ',
    receive_user_transaction (payload_of "carol") (Some "abc123") failing_env
      (run failing_env two_submissions initial) =
      (Raise (HTTPException 500 "Error processing transaction: out of memory"), σ')
    ∧ length (received_transactions σ') = 2%nat.
Proof.
  destruct (single_failure_leaves_store failing_env
              (run failing_env two_submissions initial) (payload_of "carol")
              (Some "abc123") "out of memory" failing_authorized eq_refl)
    as (σ' & Hrun & Hs & _).
  exists σ'. split; [exact Hrun|]. rewrite Hs. reflexivity.
Defined.

Lemma three_outsiders_rejected :
  Forall (λ q, rejected steady_env q ∨ presented_token q = None) three_outsiders.
Proof.
  repeat apply Forall_cons_2; [| | |apply Forall_nil_2].
  - left. exists (Some "guess"). split; [reflexivity|exact steady_guess_rejected].
  - left. exists None. split; [reflexivity|]. intros [_ H]. discriminate H.
  - right. reflexivity.
Defined.

Lemma rejected_requests_never_change_store_witness :
  received_transactions
    (run steady_env three_outsiders (run steady_env two_submissions initial))
  = received_transactions (run steady_env two_submissions initial).
Proof.
  exact (rejected_requests_never_change_store steady_env three_outsiders
           (run steady_env two_submissions initial) three_outsiders_rejected).
Defined.

Lemma unconfigured_server_stores_nothing_witness :
  received_transactions (run unconfigured_env two_submissions initial) = []
  ∧ fst (serve (GET_poc_stats (Some "")) unconfigured_env
           (run unconfigured_env two_submissions initial)) =
      Raise (HTTPException 500 "Server misconfiguration: WEBHOOK_TOKEN missing").
Proof.
  destruct (unconfigured_server_stores_nothing unconfigured_env two_submissions
              eq_refl) as (Hs & Hq).
  split; [exact Hs|]. exact (Hq (GET_poc_stats (Some "")) (Some "") eq_refl).
Defined.

Lemma submitted_record_is_listed_last_witness :
  ∃ ack σ1 r σ2 d,
    receive_user_transaction (payload_of "alice") (Some "abc123") steady_env initial
      = (Return ack, σ1)
    ∧ get_received_transactions (Some "abc123") steady_env σ1 = (Return r, σ2)
    ∧ last (Recent.last_10_transactions r) = Some d
    ∧ field "poc_id" d = Some (Single.poc_id ack)
    ∧ Recent.total_count r = 1.
Proof.
  destruct (submitted_record_is_listed_last steady_env initial (payload_of "alice")
              (Some "abc123") steady_authorized eq_refl)
    as (ack & σ1 & r & σ2 & d & H1 & H2 & H3 & H4 & _ & _ & H5).
  exists ack, σ1, r, σ2, d. repeat (split; [assumption|]). exact H5.
Defined.

Lemma recent_ids_are_consecutive_witness :
  ∃ r σ',
    get_received_transactions (Some "abc123") steady_env
      (run steady_env two_submissions initial) = (Return r, σ')
    ∧ ∀ k d, Recent.last_10_transactions r !! k = Some d →
        field "poc_id" d =
          Some (VInt (Recent.total_count r
                      - len (Recent.last_10_transactions r)
                      + Z.of_nat k + 1)).
Proof.
  exact (recent_ids_are_consecutive steady_env two_submissions (Some "abc123")
           steady_authorized).
Defined.



Lemma steady_clock_four_digit_year n :
  datetime_in_range (wall_clock steady_env n) ∧ 1000 ≤ year (wall_clock steady_env n).
Proof. split; [apply steady_in_range|simpl; lia]. Defined.

Lemma batch_of_two_stored :
  ∃ d, d ∈ received_transactions
             (run steady_env
                [POST_webhook_user_transactions_batch
                   [payload_of "alice"; payload_of "bob"] (Some "abc123")]
                initial)
       ∧ field "batch_id" d = Some (VStr "20240309_070500").
Proof.
  eexists. split.
  - apply list_elem_of_lookup. exists 0%nat. vm_compute. reflexivity.
  - vm_compute. reflexivity.
Defined.

Lemma stored_batch_ids_well_formed_witness :
  ∃ b, VStr "20240309_070500" = VStr b ∧ is_Ymd_HMS b = true.
Proof.
  destruct batch_of_two_stored as (d & Hd & Hb).
  exact (stored_batch_ids_well_formed steady_env _ d _
           steady_clock_four_digit_year Hd Hb).
Defined.

Lemma batch_log_tells_what_was_stored_witness :
  log_records
    (snd (receive_batch_transactions [payload_of "alice"; payload_of "bob"]
            (Some "abc123") steady_env initial))
  = [batch_info (payload_of "alice"); batch_info (payload_of "bob")]
  ∧ log_records
      (snd (receive_batch_transactions
              [payload_of "alice"; payload_of "bob"; payload_of "carol"]
              (Some "abc123") failing_env initial))
    = [batch_info (payload_of "alice"); batch_info (payload_of "bob");
       (ERROR, "[POC V2 ERROR] Failed to process batch: out of memory")].
Proof.
  split.
  - exact (proj1 (proj1 (batch_log_tells_what_was_stored steady_env initial
                           [payload_of "alice"; payload_of "bob"] (Some "abc123")
                           steady_authorized)
                    (λ _ _, eq_refl))).
  - assert (Hbefore : ∀ k, (k < 2)%nat →
              append_fault failing_env (append_calls initial + k)%nat = None).
    { intros [|[|k]] Hk; [reflexivity|reflexivity|lia]. }
    exact (proj1 (proj2 (batch_log_tells_what_was_stored failing_env initial
                           [payload_of "alice"; payload_of "bob"; payload_of "carol"]
                           (Some "abc123") failing_authorized)
                    2%nat "out of memory" ltac:(simpl; lia) Hbefore eq_refl)).
Defined.

Lemma retried_batch_is_stored_again_witness :
  ∃ σ1 r σ2,
    receive_batch_transactions
      [payload_of "alice"; payload_of "bob"; payload_of "carol"]
      (Some "abc123") failing_env initial =
      (Raise (HTTPException 500 "Error processing batch: out of memory"), σ1)
    ∧ receive_batch_transactions
        [payload_of "alice"; payload_of "bob"; payload_of "carol"]
        (Some "abc123") failing_env σ1 = (Return r, σ2)
    ∧ Batch.total_received r = 5.
Proof.
  assert (Hbefore : ∀ k, (k < 2)%nat →
            append_fault failing_env (append_calls initial + k)%nat = None).
  { intros [|[|k]] Hk; [reflexivity|reflexivity|lia]. }
  destruct (retried_batch_is_stored_again failing_env initial
              [payload_of "alice"; payload_of "bob"; payload_of "carol"]
              (Some "abc123") 2 "out of memory" failing_authorized
              ltac:(simpl; lia) Hbefore eq_refl (λ _ _, eq_refl))
    as (σ1 & r & σ2 & kept & again & H1 & H2 & _ & _ & _ & H3 & _).
  exists σ1, r, σ2. split; [exact H1|]. split; [exact H2|exact H3].
Defined.

Lemma resubmission_is_stored_twice_witness :
  ∃ ack1 σ1 ack2 σ2,
    receive_user_transaction (payload_of "alice") (Some "abc123") steady_env initial
      = (Return ack1, σ1)
    ∧ receive_user_transaction (payload_of "alice") (Some "abc123") steady_env σ1
      = (Return ack2, σ2)
    ∧ Single.poc_id ack1 = VInt 1
    ∧ Single.poc_id ack2 = VInt 2
    ∧ length (received_transactions σ2) = 2%nat.
Proof.
  destruct (resubmission_is_stored_twice steady_env initial (payload_of "alice")
              (Some "abc123") steady_authorized eq_refl eq_refl)
    as (ack1 & σ1 & ack2 & σ2 & d1 & d2 & H1 & H2 & H3 & H4 & H5 & _).
  exists ack1, σ1, ack2, σ2. split; [exact H1|]. split; [exact H2|].
  split; [exact H3|]. split; [exact H4|]. rewrite H5. reflexivity.
Defined.

Lemma submitted_user_shows_in_statistics_witness :
  ∃ ack σ1 users f,
    receive_user_transaction (payload_of "carol") (Some "abc123") steady_env
      (run steady_env two_submissions initial) = (Return ack, σ1)
    ∧ poc_statistics (Some "abc123") steady_env σ1 =
        (Return (Stats.Collecting 3 (len users) users f (Single.received_at ack)
                   "collecting_data"), σ1)
    ∧ VStr "carol" ∈ users.
Proof.
  destruct (submitted_user_shows_in_statistics steady_env two_submissions
              (payload_of "carol") (Some "abc123") "carol" steady_authorized
              eq_refl ltac:(discriminate) eq_refl)
    as (ack & σ1 & users & f & H1 & H2 & H3 & _).
  exists ack, σ1, users, f. split; [exact H1|]. split; [exact H2|exact H3].
Defined.
